(** * The JSON-RPC dispatch layer of the Readwise MCP server ([src/server.ts])

    A shallow embedding of the Express application: the start of the
    process, the CORS middleware, the API-key middleware [apiKeyAuth], the
    routes [GET /health], [POST /mcp] and [GET /sse] and the event stream,
    followed by the properties of the protocol layer.

    Conventions.
    - JavaScript values that travel through the handlers (request bodies,
      responses, tool results, thrown values) are values of [JSVal].
    - A handler that awaits the external collaborator or may throw runs in the
      monad [M]: it threads the collaborator's world and the log of the calls
      made to it, and ends in a JavaScript completion (normal or abrupt).
    - Express middleware is written in continuation-passing style, [next]
      being the rest of the chain. *)

From Stdlib Require Import String Ascii ZArith List Bool Lia DecimalString.
From Stdlib Require Import DecimalPos DecimalZ.
Import ListNotations.

Open Scope string_scope.
Open Scope Z_scope.

Set Warnings "-register-all".

(* ================================================================== *)
(** ** JavaScript values *)

Module JS.

(** The values the server manipulates. [JNum] carries the integer-valued
    numbers in JavaScript's safe-integer range; the server only tests numbers
    for truthiness and, in one place, renders them with [String(...)]. An
    object is the list of its own properties, in insertion order, under
    distinct names (as [JSON.parse] and object literals produce them). *)
Inductive JSVal : Type :=
| JUndefined
| JNull
| JBool (b : bool)
| JNum (z : Z)
| JStr (s : string)
| JArr (elems : list JSVal)
| JObj (props : list (string * JSVal)).

(** The empty object literal [{}]. *)
Definition empty_object : JSVal := JObj [].

(** ToBoolean: what [!v], [v || w] and [if (v)] test. *)
Definition truthy (v : JSVal) : bool :=
  match v with
  | JUndefined | JNull => false
  | JBool b => b
  | JNum z => negb (z =? 0)
  | JStr s => negb (s =? EmptyString)%string
  | JArr _ | JObj _ => true
  end.

(** [a || b]. *)
Definition js_or (a b : JSVal) : JSVal := if truthy a then a else b.

(** [v === 'lit']: strict equality with a string literal holds for that very
    string only, with no coercion. *)
Definition strict_eq_str (v : JSVal) (lit : string) : bool :=
  match v with
  | JStr s => (s =? lit)%string
  | _ => false
  end.

(** Own-property lookup in a property list. *)
Fixpoint lookup (k : string) (props : list (string * JSVal)) : JSVal :=
  match props with
  | [] => JUndefined
  | (k', v) :: rest => if (k' =? k)%string then v else lookup k rest
  end.

(** [v.k] on a value that is neither [undefined] nor [null], for the property
    names the server reads ([jsonrpc], [id], [method], [params], [name],
    [arguments], and [error], [code], [message], [data], [result] of the
    responses it builds): none of them is an index, [length] or a member of a
    built-in prototype, so only objects can have them. *)
Definition prop (v : JSVal) (k : string) : JSVal :=
  match v with
  | JObj props => lookup k props
  | _ => JUndefined
  end.

(** [v?.k]. *)
Definition opt_prop (v : JSVal) (k : string) : JSVal :=
  match v with
  | JUndefined | JNull => JUndefined
  | _ => prop v k
  end.

Definition string_of_Z (z : Z) : string := NilZero.string_of_int (Z.to_int z).

(** Whether a property list has a property named [k]. *)
Fixpoint has_key (k : string) (props : list (string * JSVal)) : bool :=
  match props with
  | [] => false
  | (k', _) :: rest => (k' =? k)%string || has_key k rest
  end.

(** What a [throw] carries: an instance of [Error] with its [message], or any
    other value. *)
Inductive Thrown : Type :=
| ThrownError (message : string)
| ThrownValue (v : JSVal).

(** A completion: the normal value of an evaluation, or the value thrown. *)
Inductive Completion (A : Type) : Type :=
| Normal (a : A)
| Abrupt (e : Thrown).
Arguments Normal {A} a.
Arguments Abrupt {A} e.

(** The [TypeError] of a conversion to a primitive that finds no method to
    call. *)
Definition cannot_convert : Thrown :=
  ThrownError "Cannot convert object to primitive value".

(** [String(v)]. An object inherits [toString] from [Object.prototype]
    unless it has an own property of that name; an own [toString] is one of
    these values, none of which is callable, and [valueOf] then gives back
    the object, so the conversion throws. Array elements are converted in
    order and joined with commas, [null] and [undefined] elements rendering
    as the empty string. *)
Fixpoint js_String (v : JSVal) : Completion string :=
  match v with
  | JUndefined => Normal "undefined"
  | JNull => Normal "null"
  | JBool true => Normal "true"
  | JBool false => Normal "false"
  | JNum z => Normal (string_of_Z z)
  | JStr s => Normal s
  | JArr elems =>
      (fix join (l : list JSVal) : Completion string :=
         match l with
         | [] => Normal EmptyString
         | x :: rest =>
             match match x with
                   | JUndefined | JNull => Normal EmptyString
                   | _ => js_String x
                   end with
             | Abrupt e => Abrupt e
             | Normal elt =>
                 match rest with
                 | [] => Normal elt
                 | _ :: _ =>
                     match join rest with
                     | Abrupt e => Abrupt e
                     | Normal tail => Normal (elt ++ "," ++ tail)
                     end
                 end
             end
         end) elems
  | JObj props =>
      if has_key "toString" props then Abrupt cannot_convert
      else Normal "[object Object]"
  end.

(** The rendering of one array element inside [join]. *)
Definition js_element (x : JSVal) : Completion string :=
  match x with
  | JUndefined | JNull => Normal EmptyString
  | _ => js_String x
  end.

(** [error instanceof Error ? error.message : String(error)]. *)
Definition failure_detail (error : Thrown) : Completion string :=
  match error with
  | ThrownError message => Normal message
  | ThrownValue v => js_String v
  end.

(** The [TypeError] raised by reading property [k] of [undefined] or [null]. *)
Definition cannot_read (v : JSVal) (k : string) : Thrown :=
  ThrownError ("Cannot read properties of "
               ++ match v with JNull => "null" | _ => "undefined" end
               ++ " (reading '" ++ k ++ "')").

(** [v.k], which throws when [v] is [undefined] or [null]. *)
Definition get (v : JSVal) (k : string) : Completion JSVal :=
  match v with
  | JUndefined | JNull => Abrupt (cannot_read v k)
  | _ => Normal (prop v k)
  end.

(** Values of type [string | undefined], as the request headers and query
    parameters are typed. *)
Definition truthy_str (o : option string) : bool :=
  match o with
  | Some s => negb (s =? EmptyString)%string
  | None => false
  end.

Definition or_str (a b : option string) : option string :=
  if truthy_str a then a else b.

Definition strict_eq_opt (a b : option string) : bool :=
  match a, b with
  | Some x, Some y => (x =? y)%string
  | None, None => true
  | _, _ => false
  end.

(** [s.startsWith(p)] and [s.substring(n)]. *)
Definition startsWith (s p : string) : bool := String.prefix p s.

Definition substring_from (n : nat) (s : string) : string :=
  String.substring n (String.length s - n) s.

End JS.
Import JS.

(* ================================================================== *)
(** ** The HTTP layer (Express) *)

Module Http.

(** The parts of an Express request the server reads, after
    [express.json()] has parsed the body: [req.method], [req.path],
    [req.headers.authorization], [req.headers['x-api-key']],
    [req.query.apiKey] and [req.body]. *)
Record Request : Type := mkRequest {
  method : string;
  path : string;
  authorization : option string;
  x_api_key : option string;
  query_apiKey : option string;
  body : JSVal
}.

(** What a response has been sent with: [res.send(text)] or [res.json(v)]. *)
Inductive Payload : Type :=
| Text (s : string)
| Json (v : JSVal).

(** The response object: status code, the headers set with [setHeader],
    the payload sent with [send]/[json], the chunks written with [write], and
    whether the response has been ended. *)
Record Res : Type := mkRes {
  statusCode : Z;
  headers : list (string * string);
  sent : option Payload;
  chunks : list string;
  ended : bool
}.

(** A fresh response: status 200, nothing set, nothing sent. *)
Definition fresh : Res :=
  {| statusCode := 200; headers := []; sent := None; chunks := [];
     ended := false |}.

Definition setHeader (res : Res) (name value : string) : Res :=
  {| statusCode := statusCode res;
     headers := headers res ++ [(name, value)];
     sent := sent res; chunks := chunks res; ended := ended res |}.

Definition status (res : Res) (code : Z) : Res :=
  {| statusCode := code; headers := headers res; sent := sent res;
     chunks := chunks res; ended := ended res |}.

Definition send (res : Res) (p : Payload) : Res :=
  {| statusCode := statusCode res; headers := headers res; sent := Some p;
     chunks := chunks res; ended := true |}.

Definition json (res : Res) (v : JSVal) : Res := send res (Json v).

(** The reason phrase Express registers for a status code. *)
Definition status_message (code : Z) : string :=
  if code =? 200 then "OK"
  else if code =? 400 then "Bad Request"
  else if code =? 401 then "Unauthorized"
  else if code =? 403 then "Forbidden"
  else if code =? 404 then "Not Found"
  else if code =? 500 then "Internal Server Error"
  else string_of_Z code.

(** [res.sendStatus(code)]: Express sets the status code and sends its
    reason phrase as the text body. *)
Definition sendStatus (res : Res) (code : Z) : Res :=
  send (status res code) (Text (status_message code)).

Definition write (res : Res) (chunk : string) : Res :=
  {| statusCode := statusCode res; headers := headers res; sent := sent res;
     chunks := chunks res ++ [chunk]; ended := ended res |}.

(** [res.end()]. *)
Definition end_ (res : Res) : Res :=
  {| statusCode := statusCode res; headers := headers res; sent := sent res;
     chunks := chunks res; ended := true |}.

(** The JSON body of a response, [undefined] when it has none. *)
Definition json_body (res : Res) : JSVal :=
  match sent res with
  | Some (Json v) => v
  | _ => JUndefined
  end.

(** [error.code] and [id] of a JSON-RPC response body. *)
Definition error_code (res : Res) : JSVal :=
  prop (prop (json_body res) "error") "code".

Definition error_message (res : Res) : JSVal :=
  prop (prop (json_body res) "error") "message".

Definition error_data (res : Res) : JSVal :=
  prop (prop (json_body res) "error") "data".

Definition response_id (res : Res) : JSVal := prop (json_body res) "id".

Definition response_result (res : Res) : JSVal :=
  prop (json_body res) "result".

End Http.
Import Http.

(* ================================================================== *)
(** ** Effects: the collaborator's world, its call log, and exceptions *)

Module Eff.

(** One invocation of the collaborator: [handleToolCall(name, args)]. *)
Definition Invocation : Type := (JSVal * JSVal)%type.

(** The state a handler threads: the world the collaborator acts on, and the
    invocations made so far, oldest first. *)
Record St (World : Type) : Type := mkSt {
  world : World;
  calls : list Invocation
}.
Arguments mkSt {World} world calls.
Arguments world {World} s.
Arguments calls {World} s.

(** A computation that may read and change the state and completes normally
    or abruptly. *)
Definition M (World A : Type) : Type := St World -> Completion A * St World.

Definition ret {World A} (a : A) : M World A := fun s => (Normal a, s).

Definition throw {World A} (e : Thrown) : M World A := fun s => (Abrupt e, s).

Definition bind {World A B} (m : M World A) (k : A -> M World B) : M World B :=
  fun s =>
    match m s with
    | (Normal a, s') => k a s'
    | (Abrupt e, s') => (Abrupt e, s')
    end.

(** [try { m } catch (error) { handler error }]. *)
Definition try_catch {World A} (m : M World A) (handler : Thrown -> M World A)
  : M World A :=
  fun s =>
    match m s with
    | (Normal a, s') => (Normal a, s')
    | (Abrupt e, s') => handler e s'
    end.

(** A pure evaluation that may throw. *)
Definition lift {World A} (c : Completion A) : M World A := fun s => (c, s).

(** [await collaborator(name, args)]: the call is logged, the world moves on,
    and a rejection is thrown at the [await]. *)
Definition await_call {World}
    (collaborator : JSVal -> JSVal -> World -> Completion JSVal * World)
    (name args : JSVal) : M World JSVal :=
  fun s =>
    let (outcome, w') := collaborator name args (world s) in
    (outcome, {| world := w'; calls := calls s ++ [(name, args)] |}).

End Eff.
Import Eff.

Declare Scope eff_scope.
Delimit Scope eff_scope with eff.
Notation "x <- m ;; k" := (bind m (fun x => k))
  (at level 61, m at next level, right associativity) : eff_scope.
Open Scope eff_scope.

(* ================================================================== *)
(** ** The server *)

Section Server.

(** The module-level constants and imports of [server.ts]:
    [process.env.MCP_API_KEY], the tool catalogue [tools], and the
    collaborator [handleToolCall], which runs against a [World] of its own
    (the upstream service) and resolves or rejects. *)
Variable World : Type.
Variable MCP_API_KEY : option string.
Variable tools : JSVal.
Variable handleToolCall : JSVal -> JSVal -> World -> Completion JSVal * World.

(** The CORS middleware. *)
Definition corsMiddleware (req : Request) (res : Res)
    (next : Res -> M World Res) : M World Res :=
  let res := setHeader res "Access-Control-Allow-Origin" "*" in
  let res := setHeader res "Access-Control-Allow-Methods"
                       "GET, POST, OPTIONS" in
  let res := setHeader res "Access-Control-Allow-Headers"
                       "Content-Type, Authorization, X-API-Key" in
  if (method req =? "OPTIONS")%string then
    ret (sendStatus res 200)
  else
    next res.

(** [authHeader?.startsWith('Bearer ') ? authHeader.substring(7) : authHeader] *)
Definition apiKeyFromHeader (req : Request) : option string :=
  let authHeader := authorization req in
  match authHeader with
  | Some h => if startsWith h "Bearer " then Some (substring_from 7 h)
              else authHeader
  | None => authHeader
  end.

Definition apiKeyFromCustomHeader (req : Request) : option string :=
  x_api_key req.

Definition apiKeyFromQuery (req : Request) : option string :=
  query_apiKey req.

(** [apiKeyFromHeader || apiKeyFromCustomHeader || apiKeyFromQuery] *)
Definition providedKey (req : Request) : option string :=
  or_str (or_str (apiKeyFromHeader req) (apiKeyFromCustomHeader req))
         (apiKeyFromQuery req).

(** The body of an authentication failure. *)
Definition auth_error (code : Z) (message : string) : JSVal :=
  JObj [("jsonrpc", JStr "2.0");
        ("error", JObj [("code", JNum code); ("message", JStr message)]);
        ("id", JNull)].

(** The API-key middleware. *)
Definition apiKeyAuth (req : Request) (res : Res)
    (next : Res -> M World Res) : M World Res :=
  if negb (truthy_str MCP_API_KEY) then
    next res
  else
    let providedKey := providedKey req in
    if negb (truthy_str providedKey) then
      ret (json (status res 401)
                (auth_error (-32001) "Unauthorized: API key required"))
    else if negb (strict_eq_opt providedKey MCP_API_KEY) then
      ret (json (status res 403)
                (auth_error (-32003) "Forbidden: Invalid API key"))
    else
      next res.

(** [GET /health] *)
Definition health_handler (req : Request) (res : Res) : M World Res :=
  ret (json res (JObj [("status", JStr "ok");
                       ("service", JStr "readwise-mcp-enhanced")])).

(** The response to [initialize]. *)
Definition initialize_result : JSVal :=
  JObj [("protocolVersion", JStr "2024-11-05");
        ("capabilities", JObj [("tools", empty_object)]);
        ("serverInfo", JObj [("name", JStr "readwise-mcp-enhanced");
                             ("version", JStr "1.0.0")])].

(** The [tools/call] branch: [name] and [arguments] are read from
    [request.params || {}]; a falsy [name] is answered at once, otherwise the
    collaborator is awaited inside its own [try]/[catch]. What the [catch]
    block itself throws, while it renders the error, leaves the branch. *)
Definition tools_call (request : JSVal) : M World JSVal :=
  params <- lift (get request "params") ;;
  let source := js_or params empty_object in
  let name := prop source "name" in
  let args := prop source "arguments" in
  if negb (truthy name) then
    id <- lift (get request "id") ;;
    ret (JObj [("jsonrpc", JStr "2.0");
               ("id", id);
               ("error", JObj [("code", JNum (-32602));
                               ("message",
                                JStr "Invalid params: tool name is required")])])
  else
    try_catch
      (result <- await_call handleToolCall name (js_or args empty_object) ;;
       id <- lift (get request "id") ;;
       ret (JObj [("jsonrpc", JStr "2.0");
                  ("id", id);
                  ("result", result)]))
      (fun error =>
         id <- lift (get request "id") ;;
         data <- lift (failure_detail error) ;;
         ret (JObj [("jsonrpc", JStr "2.0");
                    ("id", id);
                    ("error", JObj [("code", JNum (-32603));
                                    ("message", JStr "Internal error");
                                    ("data", JStr data)])])).

(** The method dispatch of [POST /mcp], for a request whose [jsonrpc] member
    has been accepted: it builds the [response] object. *)
Definition dispatch (request : JSVal) : M World JSVal :=
  method <- lift (get request "method") ;;
  if strict_eq_str method "initialize" then
    id <- lift (get request "id") ;;
    ret (JObj [("jsonrpc", JStr "2.0");
               ("id", id);
               ("result", initialize_result)])
  else if strict_eq_str method "tools/list" then
    id <- lift (get request "id") ;;
    ret (JObj [("jsonrpc", JStr "2.0");
               ("id", id);
               ("result", JObj [("tools", tools)])])
  else if strict_eq_str method "tools/call" then
    tools_call request
  else
    id <- lift (get request "id") ;;
    ret (JObj [("jsonrpc", JStr "2.0");
               ("id", id);
               ("error", JObj [("code", JNum (-32601));
                               ("message", JStr "Method not found")])]).

(** The handler of [POST /mcp], with its outer [try]/[catch]. *)
Definition mcp_handler (req : Request) (res : Res) : M World Res :=
  try_catch
    (let request := body req in
     jsonrpc <- lift (get request "jsonrpc") ;;
     if negb (truthy jsonrpc) || negb (strict_eq_str jsonrpc "2.0") then
       id <- lift (get request "id") ;;
       ret (json (status res 400)
                 (JObj [("jsonrpc", JStr "2.0");
                        ("error", JObj [("code", JNum (-32600));
                                        ("message", JStr "Invalid Request")]);
                        ("id", js_or id JNull)]))
     else
       response <- dispatch request ;;
       ret (json res response))
    (fun error =>
       data <- lift (failure_detail error) ;;
       ret (json (status res 500)
                 (JObj [("jsonrpc", JStr "2.0");
                        ("id", js_or (opt_prop (body req) "id") JNull);
                        ("error", JObj [("code", JNum (-32603));
                                        ("message", JStr "Internal error");
                                        ("data", JStr data)])]))).

(** [POST /mcp] with its middleware chain. *)
Definition post_mcp (req : Request) (res : Res) : M World Res :=
  corsMiddleware req res (fun res =>
    apiKeyAuth req res (fun res => mcp_handler req res)).

End Server.

Arguments corsMiddleware {World} req res next.
Arguments apiKeyAuth {World} MCP_API_KEY req res next.
Arguments tools_call {World} handleToolCall request.
Arguments dispatch {World} tools handleToolCall request.
Arguments mcp_handler {World} tools handleToolCall req res.
Arguments post_mcp {World} MCP_API_KEY tools handleToolCall req res.

(** The three candidates of a request, in the order of the [||] chain. *)
Definition candidates (req : Request) : list (option string) :=
  [apiKeyFromHeader req; apiKeyFromCustomHeader req; apiKeyFromQuery req].

(* ================================================================== *)
(** ** The event stream of [GET /sse] *)

Module Sse.

Definition quote : string := String "034"%char EmptyString.
Definition newline : string := String "010"%char EmptyString.

(** The two chunks the stream carries. *)
Definition connection_event : string :=
  "data: {" ++ quote ++ "type" ++ quote ++ ":" ++ quote ++ "connection"
  ++ quote ++ "," ++ quote ++ "status" ++ quote ++ ":" ++ quote
  ++ "connected" ++ quote ++ "}" ++ newline ++ newline.

Definition keepalive_event : string := ": keepalive" ++ newline ++ newline.

(** A timer created by [setInterval(callback, ms)]: its period and the
    milliseconds left until it next fires. *)
Record Interval : Type := mkInterval {
  period : Z;
  remaining : Z
}.

Definition setInterval (ms : Z) : Interval :=
  {| period := ms; remaining := ms |}.

(** An open stream: the response being written to and the [keepAlive] timer
    of the handler's closure, [None] once cleared. *)
Record Conn : Type := mkConn {
  response : Res;
  keepAlive : option Interval
}.

(** The handler of [GET /sse]: headers, the connection message, then the
    keep-alive timer; the ['close'] listener is [on_close] below. *)
Definition sse_handler (req : Request) (res : Res) : Conn :=
  let res := setHeader res "Content-Type" "text/event-stream" in
  let res := setHeader res "Cache-Control" "no-cache" in
  let res := setHeader res "Connection" "keep-alive" in
  let res := setHeader res "Access-Control-Allow-Origin" "*" in
  let res := write res connection_event in
  {| response := res; keepAlive := Some (setInterval 30000) |}.

(** The callback of the keep-alive timer. *)
Definition on_keepAlive (res : Res) : Res := write res keepalive_event.

(** The listener of the request's ['close'] event:
    [clearInterval(keepAlive); res.end()]. *)
Definition on_close (c : Conn) : Conn :=
  {| response := end_ (response c); keepAlive := None |}.

(** What happens to an open stream: a millisecond passes, or the client
    closes the connection. *)
Inductive Event : Type :=
| Tick
| Close.

(** One millisecond of the event loop: a live timer that comes due runs its
    callback and is re-armed with its period. *)
Definition tick (c : Conn) : Conn :=
  match keepAlive c with
  | None => c
  | Some t =>
      if remaining t <=? 1 then
        {| response := on_keepAlive (response c);
           keepAlive := Some {| period := period t; remaining := period t |} |}
      else
        {| response := response c;
           keepAlive := Some {| period := period t;
                                remaining := remaining t - 1 |} |}
  end.

Definition step (c : Conn) (e : Event) : Conn :=
  match e with
  | Tick => tick c
  | Close => on_close c
  end.

Definition run (c : Conn) (events : list Event) : Conn :=
  fold_left step events c.

End Sse.
Import Sse.

(** A request body the Envelope Validator accepts. *)
Definition valid_envelope (request : JSVal) : Prop :=
  prop request "jsonrpc" = JStr "2.0".

(** The tool name and the arguments the [tools/call] branch extracts. *)
Definition tool_name (request : JSVal) : JSVal :=
  prop (js_or (prop request "params") empty_object) "name".

Definition tool_arguments (request : JSVal) : JSVal :=
  js_or (prop (js_or (prop request "params") empty_object) "arguments")
        empty_object.

(* ================================================================== *)
(** ** The Auth Gate in the words of the specification *)

Module Spec.

Inductive Decision : Type :=
| Allow
| Unauthorized
| Forbidden.

(** The provided credential: the first non-empty candidate, in the order
    given. *)
Fixpoint first_nonempty (candidates : list (option string)) : option string :=
  match candidates with
  | [] => None
  | Some c :: rest =>
      if (c =? EmptyString)%string then first_nonempty rest else Some c
  | None :: rest => first_nonempty rest
  end.

(** [authorize] for a configured secret. *)
Definition authorize (secret : string) (candidates : list (option string))
  : Decision :=
  match first_nonempty candidates with
  | None => Unauthorized
  | Some c => if (c =? secret)%string then Allow else Forbidden
  end.

(** The bearer-style value of an [Authorization] header: what follows
    ["Bearer "] when the header begins with it, the whole header otherwise. *)
Definition bearer_value (header : option string) : option string :=
  match header with
  | Some (String "B" (String "e" (String "a" (String "r" (String "e"
       (String "r" (String " " token))))))) => Some token
  | _ => header
  end.

(** The three credential locations of a request, in precedence order. *)
Definition credentials (req : Request) : list (option string) :=
  [bearer_value (authorization req); x_api_key req; query_apiKey req].

(** The string rendering of a value: [string_of v s] when [String(v)] is
    [s]. An object renders only when it has no [toString] of its own; an
    array renders when its elements do, joined by commas, [null] and
    [undefined] elements as the empty string. *)
Inductive string_of : JSVal -> string -> Prop :=
| string_of_undefined : string_of JUndefined "undefined"
| string_of_null : string_of JNull "null"
| string_of_true : string_of (JBool true) "true"
| string_of_false : string_of (JBool false) "false"
| string_of_number (z : Z) : string_of (JNum z) (string_of_Z z)
| string_of_string (s : string) : string_of (JStr s) s
| string_of_object (props : list (string * JSVal)) :
    has_key "toString" props = false ->
    string_of (JObj props) "[object Object]"
| string_of_array (elems : list JSVal) (s : string) :
    joined elems s -> string_of (JArr elems) s
with joined : list JSVal -> string -> Prop :=
| joined_none : joined [] EmptyString
| joined_last (x : JSVal) (s : string) : element x s -> joined [x] s
| joined_more (x y : JSVal) (rest : list JSVal) (s t : string) :
    element x s -> joined (y :: rest) t ->
    joined (x :: y :: rest) (s ++ "," ++ t)
with element : JSVal -> string -> Prop :=
| element_undefined : element JUndefined EmptyString
| element_null : element JNull EmptyString
| element_other (v : JSVal) (s : string) :
    v <> JUndefined -> v <> JNull -> string_of v s -> element v s.

(** The string rendering of a failure: the message of an [Error], the
    rendering of any other value. *)
Inductive rendering : Thrown -> string -> Prop :=
| rendering_error (message : string) : rendering (ThrownError message) message
| rendering_value (v : JSVal) (s : string) :
    string_of v s -> rendering (ThrownValue v) s.

End Spec.

(* ================================================================== *)
(** ** A stub collaborator, for concrete runs *)

Module Stub.

(** The stub's world counts the calls it has served. Tool ["X"] always
    fails; every other tool answers with [tool_result]. *)
Definition tool_result : JSVal :=
  JObj [("content", JArr [JObj [("type", JStr "text");
                                ("text", JStr "3 highlights")]])].

Definition handleToolCall (name args : JSVal) (served : nat)
  : Completion JSVal * nat :=
  if strict_eq_str name "X" then
    (Abrupt (ThrownError "upstream unavailable"), S served)
  else
    (Normal tool_result, S served).

Definition tools : JSVal :=
  JArr [JObj [("name", JStr "readwise_list_highlights");
              ("description", JStr "List highlights");
              ("inputSchema", JObj [("type", JStr "object")])]].

Definition start : St nat := {| world := 0%nat; calls := [] |}.

(** A [POST /mcp] request without credentials. *)
Definition post (b : JSVal) : Request :=
  {| method := "POST"; path := "/mcp"; authorization := None;
     x_api_key := None; query_apiKey := None; body := b |}.

(** A request with the given credentials and an [id] in its body. *)
Definition with_keys (auth custom query : option string) : Request :=
  {| method := "POST"; path := "/mcp"; authorization := auth;
     x_api_key := custom; query_apiKey := query;
     body := JObj [("jsonrpc", JStr "2.0"); ("id", JNum 7);
                   ("method", JStr "tools/list")] |}.

(** An [OPTIONS] request carrying a well-formed [tools/call] body. *)
Definition preflight (p : string) : Request :=
  {| method := "OPTIONS"; path := p; authorization := None;
     x_api_key := None; query_apiKey := None;
     body := JObj [("jsonrpc", JStr "2.0"); ("id", JNum 1);
                   ("method", JStr "tools/call");
                   ("params", JObj [("name", JStr "X")])] |}.

(** An authorized call of tool [name] on page 2. *)
Definition authorized_call (name : string) : Request :=
  {| method := "POST"; path := "/mcp";
     authorization := Some "Bearer s3cret"; x_api_key := None;
     query_apiKey := None;
     body := JObj [("jsonrpc", JStr "2.0"); ("id", JNum 9);
                   ("method", JStr "tools/call");
                   ("params",
                    JObj [("name", JStr name);
                          ("arguments", JObj [("page", JNum 2)])])] |}.

(** A collaborator that rejects every call with the value [v]. *)
Definition rejecting (v : JSVal) (name args : JSVal) (served : nat)
  : Completion JSVal * nat :=
  (Abrupt (ThrownValue v), S served).

(** A collaborator that resolves every call to [v]. *)
Definition resolving (v : JSVal) (name args : JSVal) (served : nat)
  : Completion JSVal * nat :=
  (Normal v, S served).

Definition call_request (name : JSVal) : JSVal :=
  JObj [("jsonrpc", JStr "2.0"); ("id", JNum 1);
        ("method", JStr "tools/call");
        ("params", JObj [("name", name)])].

End Stub.

(* ================================================================== *)
(** ** The other routes *)

Arguments health_handler {World} req res.

(** Whether [k] is an own property of a value. *)
Definition has_own (v : JSVal) (k : string) : bool :=
  match v with
  | JObj props => has_key k props
  | _ => false
  end.

(** Whether [k] is a member that [JSON.stringify] keeps in the body sent: a
    member holding [undefined] is left out. *)
Definition serialized (v : JSVal) (k : string) : bool :=
  match v with
  | JObj props =>
      has_key k props
      && match lookup k props with JUndefined => false | _ => true end
  | _ => false
  end.

(** [GET /health] with its middleware chain: the CORS middleware only. *)
Definition get_health {World} (req : Request) (res : Res) : M World Res :=
  corsMiddleware req res (fun res => health_handler req res).

(** [GET /sse] with its middleware chain, up to the end of the handler's
    synchronous part: the response as the handler leaves it, still open, its
    timer being that of [sse_handler]. *)
Definition get_sse {World} (MCP_API_KEY : option string) (req : Request)
    (res : Res) : M World Res :=
  corsMiddleware req res (fun res =>
    apiKeyAuth MCP_API_KEY req res (fun res =>
      ret (response (sse_handler req res)))).

(** The headers the CORS middleware sets, in order. *)
Definition cors_headers : list (string * string) :=
  [("Access-Control-Allow-Origin", "*");
   ("Access-Control-Allow-Methods", "GET, POST, OPTIONS");
   ("Access-Control-Allow-Headers", "Content-Type, Authorization, X-API-Key")].

(** The events of a stream up to its first [Close]: how many milliseconds
    pass before it, and whether there is one. *)
Fixpoint ticks_before_close (events : list Event) : nat :=
  match events with
  | [] => 0%nat
  | Tick :: rest => S (ticks_before_close rest)
  | Close :: _ => 0%nat
  end.

(** Whether the keep-alive timer of a stream is gone. *)
Definition no_timer (c : Conn) : bool :=
  match keepAlive c with
  | None => true
  | Some _ => false
  end.

(** Whether the client closes during [events]. *)
Fixpoint closes (events : list Event) : bool :=
  match events with
  | [] => false
  | Tick :: rest => closes rest
  | Close :: _ => true
  end.

(* ================================================================== *)
(** ** The start of the process *)

Module Startup.

(** The environment variables the server reads, after [dotenv.config()]. *)
Record Env : Type := mkEnv {
  READWISE_TOKEN : option string;
  MCP_API_KEY : option string;
  PORT : option string
}.

(** [parseInt(s, 10)] on a string of code units below 256: leading white
    space is skipped, one sign is read, then the longest run of decimal
    digits; [None] is [NaN], the result when there is no digit. *)
Definition is_whitespace (c : ascii) : bool :=
  let n := nat_of_ascii c in
  ((9 <=? n)%nat && (n <=? 13)%nat) || (n =? 32)%nat || (n =? 160)%nat.

Definition is_digit (c : ascii) : bool :=
  let n := nat_of_ascii c in (48 <=? n)%nat && (n <=? 57)%nat.

Definition digit_value (c : ascii) : Z := Z.of_nat (nat_of_ascii c) - 48.

Fixpoint skip_whitespace (s : string) : string :=
  match s with
  | String c rest => if is_whitespace c then skip_whitespace rest else s
  | EmptyString => s
  end.

Fixpoint parse_digits (s : string) (acc : option Z) : option Z :=
  match s with
  | String c rest =>
      if is_digit c then
        parse_digits rest
          (Some (10 * match acc with Some a => a | None => 0 end
                 + digit_value c))
      else acc
  | EmptyString => acc
  end.

Definition parseInt (s : string) : option Z :=
  let s := skip_whitespace s in
  let (sign, s) :=
    match s with
    | String "-" rest => (-1, rest)
    | String "+" rest => (1, rest)
    | _ => (1, s)
    end in
  match parse_digits s None with
  | Some n => Some (sign * n)
  | None => None
  end.

(** [(process.env.PORT ? parseInt(process.env.PORT, 10) : undefined) || 3000]:
    [undefined], [NaN] and zero are falsy. *)
Definition port (env : Env) : Z :=
  let parsed :=
    match PORT env with
    | Some p => if truthy_str (PORT env) then parseInt p else None
    | None => None
    end in
  match parsed with
  | Some n => if n =? 0 then 3000 else n
  | None => 3000
  end.

(** The ports [app.listen] accepts; any other makes it throw. *)
Definition valid_port (p : Z) : bool := (0 <=? p) && (p <=? 65535).

(** How the start of the process ends: [process.exit(code)]; or
    [app.listen(port, ...)] succeeds and its callback runs; or [app.listen]
    fails, by throwing on a port out of range or by the server's ['error']
    event when the host refuses the port, and the process dies of the
    uncaught error without the callback having run. [stderr] and [stdout]
    are the lines the server's own [console] calls have written. *)
Inductive Outcome : Type :=
| Exited (code : Z) (stderr : list string)
| Listening (port : Z) (stderr stdout : list string)
| Crashed (port : Z) (stderr : list string).

(** The start of the process on a host where [bind p] tells whether port
    [p] can be bound. *)
Definition main (bind : Z -> bool) (env : Env) : Outcome :=
  if negb (truthy_str (READWISE_TOKEN env)) then
    Exited 1
      ["ERROR: READWISE_TOKEN environment variable is required";
       "Please set READWISE_TOKEN in your environment variables.";
       "Get your token from: https://readwise.io/access_token"]
  else
    let stderr :=
      if negb (truthy_str (MCP_API_KEY env)) then
        ["WARNING: MCP_API_KEY not set. Server will run without API key authentication.";
         "For production use, please set MCP_API_KEY in your environment variables."]
      else [] in
    let PORT := port env in
    if valid_port PORT && bind PORT then
      Listening PORT stderr
        ["Readwise MCP Enhanced server running on port " ++ string_of_Z PORT;
         "MCP endpoint: http://localhost:" ++ string_of_Z PORT ++ "/mcp";
         "SSE endpoint: http://localhost:" ++ string_of_Z PORT ++ "/sse";
         "Health check: http://localhost:" ++ string_of_Z PORT ++ "/health";
         "API Key authentication: "
           ++ (if truthy_str (MCP_API_KEY env) then "Enabled" else "Disabled");
         "Readwise token: "
           ++ (if truthy_str (READWISE_TOKEN env) then "Configured"
               else "Missing")]
    else
      Crashed PORT stderr.

End Startup.

(* ================================================================== *)
(** ** Properties of the Auth Gate and the CORS middleware *)

Implicit Types (req : Request) (res : Res) (key : string).

Lemma first_nonempty_cons (c : option string) (rest : list (option string)) :
  Spec.first_nonempty (c :: rest) =
  if truthy_str c then c else Spec.first_nonempty rest.
Proof.
  destruct c as [s|]; simpl.
  - destruct (s =? EmptyString)%string; reflexivity.
  - reflexivity.
Qed.

(** The [||] chain computes the first non-empty candidate; when there is
    none, what it yields is falsy. *)
Lemma providedKey_first_nonempty req :
  Spec.first_nonempty (candidates req) =
  if truthy_str (providedKey req) then providedKey req else None.
Proof.
  unfold candidates, providedKey.
  rewrite !first_nonempty_cons. unfold or_str.
  destruct (truthy_str (apiKeyFromHeader req)) eqn:Ha.
  - rewrite !Ha. reflexivity.
  - destruct (truthy_str (apiKeyFromCustomHeader req)) eqn:Hb.
    + rewrite !Hb. reflexivity.
    + destruct (truthy_str (apiKeyFromQuery req)) eqn:Hc; reflexivity.
Qed.

(** The provided credential is a non-empty string. *)
Lemma first_nonempty_nonempty (l : list (option string)) (c : string) :
  Spec.first_nonempty l = Some c -> c <> EmptyString.
Proof.
  induction l as [|[s|] rest IH]; simpl; intros H.
  - discriminate.
  - destruct (s =? EmptyString)%string eqn:E.
    + auto.
    + injection H as <-. apply String.eqb_neq. exact E.
  - auto.
Qed.

Lemma truthy_str_some (key : string) :
  key <> EmptyString -> truthy_str (Some key) = true.
Proof.
  intros H. simpl. apply String.eqb_neq in H. rewrite H. reflexivity.
Qed.

Lemma substring_whole (s : string) :
  String.substring 0 (String.length s) s = s.
Proof.
  induction s as [|c s IH]; simpl; [reflexivity | rewrite IH; reflexivity].
Qed.

Ltac peel_char h :=
  let c := fresh "c" in
  destruct h as [|c h]; [reflexivity|];
  destruct c as [[|] [|] [|] [|] [|] [|] [|] [|]]; try reflexivity.

(** The code's [startsWith]/[substring] pair computes the bearer-style
    value of the header. *)
Lemma apiKeyFromHeader_bearer_value req :
  apiKeyFromHeader req = Spec.bearer_value (authorization req).
Proof.
  unfold apiKeyFromHeader, Spec.bearer_value, startsWith, substring_from.
  destruct (authorization req) as [h|]; [|reflexivity].
  do 7 peel_char h.
  simpl. rewrite Nat.sub_0_r, substring_whole.
  destruct h; reflexivity.
Qed.

(** The operands of the [||] chain are the three credential locations of
    the request, in precedence order. *)
Lemma candidates_credentials req : candidates req = Spec.credentials req.
Proof.
  unfold candidates, Spec.credentials.
  rewrite apiKeyFromHeader_bearer_value. reflexivity.
Qed.

(** C1. With a secret configured, [apiKeyAuth] decides as the Auth Gate of
    the specification does on the three credential locations of the request
    itself: the [Authorization] header without its ["Bearer "] prefix, the
    [X-API-Key] header, the [apiKey] query parameter, in that order. With no
    non-empty candidate it answers 401 with [error.code = -32001]; when the
    first non-empty candidate differs from the secret it answers 403 with
    [error.code = -32003], whatever the later candidates are; when it equals
    the secret the request goes on to [next]. *)
Theorem apiKeyAuth_configured {World} key req res
    (next : Res -> M World Res) :
  key <> EmptyString ->
  match Spec.first_nonempty
          [Spec.bearer_value (authorization req); x_api_key req;
           query_apiKey req] with
  | None =>
      Spec.authorize key (Spec.credentials req) = Spec.Unauthorized /\
      exists r, apiKeyAuth (Some key) req res next = ret r /\
                statusCode r = 401 /\ error_code r = JNum (-32001)
  | Some provided =>
      if (provided =? key)%string then
        Spec.authorize key (Spec.credentials req) = Spec.Allow /\
        apiKeyAuth (Some key) req res next = next res
      else
        Spec.authorize key (Spec.credentials req) = Spec.Forbidden /\
        exists r, apiKeyAuth (Some key) req res next = ret r /\
                  statusCode r = 403 /\ error_code r = JNum (-32003)
  end.
Proof.
  intros Hkey.
  change [Spec.bearer_value (authorization req); x_api_key req;
          query_apiKey req] with (Spec.credentials req).
  unfold Spec.authorize, apiKeyAuth.
  rewrite (truthy_str_some key Hkey). simpl negb. cbv iota.
  rewrite <- candidates_credentials, providedKey_first_nonempty.
  destruct (truthy_str (providedKey req)) eqn:Hp; simpl negb; cbv iota.
  - destruct (providedKey req) as [k|] eqn:Hk; [|discriminate Hp].
    simpl strict_eq_opt.
    destruct (k =? key)%string eqn:E; simpl negb; cbv iota.
    + split; reflexivity.
    + split; [reflexivity|]. eexists. split; [reflexivity|].
      split; reflexivity.
  - split; [reflexivity|]. eexists. split; [reflexivity|].
    split; reflexivity.
Qed.

(** Three requests against the secret ["s3cret"]: a wrong bearer token
    shadows the secret in [X-API-Key] (403); the secret in the query
    parameter alone passes; a request without credentials is refused
    (401). *)
Lemma apiKeyAuth_configured_witness :
  ("s3cret" <> EmptyString) /\
  (exists r,
      apiKeyAuth (World := nat) (Some "s3cret")
        (Stub.with_keys (Some "Bearer nope") (Some "s3cret") None) fresh
        (fun res => ret res)
      = ret r /\ statusCode r = 403 /\ error_code r = JNum (-32003)) /\
  (apiKeyAuth (World := nat) (Some "s3cret")
     (Stub.with_keys None None (Some "s3cret")) fresh (fun res => ret res)
   = ret fresh) /\
  (apiKeyAuth (World := nat) (Some "s3cret")
     (Stub.with_keys (Some "Bearer s3cret") None None) fresh
     (fun res => ret res)
   = ret fresh) /\
  (exists r,
      apiKeyAuth (World := nat) (Some "s3cret")
        (Stub.with_keys None None None) fresh (fun res => ret res)
      = ret r /\ statusCode r = 401 /\ error_code r = JNum (-32001)).
Proof.
  split; [discriminate|]. split; [|split; [|split]].
  - apply (apiKeyAuth_configured (World := nat) "s3cret"
             (Stub.with_keys (Some "Bearer nope") (Some "s3cret") None)
             fresh (fun res => ret res) ltac:(discriminate)).
  - apply (apiKeyAuth_configured (World := nat) "s3cret"
             (Stub.with_keys None None (Some "s3cret"))
             fresh (fun res => ret res) ltac:(discriminate)).
  - apply (apiKeyAuth_configured (World := nat) "s3cret"
             (Stub.with_keys (Some "Bearer s3cret") None None)
             fresh (fun res => ret res) ltac:(discriminate)).
  - apply (apiKeyAuth_configured (World := nat) "s3cret"
             (Stub.with_keys None None None)
             fresh (fun res => ret res) ltac:(discriminate)).
Defined.

(** C6. Without a configured secret ([MCP_API_KEY] undefined, or the empty
    string, which [!MCP_API_KEY] treats alike) every request goes on to
    [next], whatever credentials it carries. *)
Theorem apiKeyAuth_unconfigured {World} req res (next : Res -> M World Res) :
  apiKeyAuth None req res next = next res /\
  apiKeyAuth (Some EmptyString) req res next = next res.
Proof. split; reflexivity. Qed.

(** C10. [apiKeyAuth] either hands the request to [next], or sends one of
    two responses of its own, 401 with [-32001] or 403 with [-32003], and
    both carry [id = null] whatever the request body holds. *)
Theorem apiKeyAuth_failure_id_null {World} (MCP_API_KEY : option string)
    req res :
  (forall next : Res -> M World Res,
      apiKeyAuth MCP_API_KEY req res next = next res) \/
  (exists r,
      (forall next : Res -> M World Res,
          apiKeyAuth MCP_API_KEY req res next = ret r) /\
      response_id r = JNull /\
      ((statusCode r = 401 /\ error_code r = JNum (-32001)) \/
       (statusCode r = 403 /\ error_code r = JNum (-32003)))).
Proof.
  unfold apiKeyAuth.
  destruct (truthy_str MCP_API_KEY); simpl negb; cbv iota.
  - destruct (truthy_str (providedKey req)); simpl negb; cbv iota.
    + destruct (strict_eq_opt (providedKey req) MCP_API_KEY);
        simpl negb; cbv iota.
      * left. reflexivity.
      * right. eexists. split; [reflexivity|].
        split; [reflexivity|]. right. split; reflexivity.
    + right. eexists. split; [reflexivity|].
      split; [reflexivity|]. left. split; reflexivity.
  - left. reflexivity.
Qed.

(** The claim of C9 fails on its "no body": the response to a preflight
    request is not one with status 200 and nothing sent. *)
Lemma cors_options_no_body_counterexample :
  ~ (exists r,
        corsMiddleware (World := nat) (Stub.preflight "/mcp") fresh
          (fun res => ret res) Stub.start = (Normal r, Stub.start) /\
        statusCode r = 200 /\ sent r = None).
Proof.
  intros [r [H [_ Hsent]]].
  vm_compute in H. injection H as <-. discriminate Hsent.
Qed.

(** C9, amended. Every [OPTIONS] request, whatever its path, is answered by
    the CORS middleware itself: status 200, the text body ["OK"] that
    [sendStatus] sends, no JSON body; [next] is not called, so neither the
    Auth Gate nor the handler of [POST /mcp] runs and the collaborator's
    state is left as it was. *)
Theorem cors_options_short_circuit {World} req res :
  method req = "OPTIONS" ->
  exists r,
    (forall next : Res -> M World Res, corsMiddleware req res next = ret r) /\
    (forall MCP_API_KEY tools handleToolCall (s : St World),
        post_mcp MCP_API_KEY tools handleToolCall req res s = (Normal r, s)) /\
    statusCode r = 200 /\
    sent r = Some (Text "OK") /\
    json_body r = JUndefined.
Proof.
  intros Hm. unfold post_mcp, corsMiddleware. rewrite Hm. simpl.
  eexists. split; [reflexivity|]. split; [reflexivity|].
  repeat split.
Qed.

Lemma cors_options_short_circuit_witness :
  method (Stub.preflight "/anything") = "OPTIONS" /\
  exists r,
    (forall next : Res -> M nat Res,
        corsMiddleware (Stub.preflight "/anything") fresh next = ret r) /\
    (forall MCP_API_KEY tools handleToolCall (s : St nat),
        post_mcp MCP_API_KEY tools handleToolCall
                 (Stub.preflight "/anything") fresh s = (Normal r, s)) /\
    statusCode r = 200 /\
    sent r = Some (Text "OK") /\
    json_body r = JUndefined.
Proof.
  split; [reflexivity|].
  apply (cors_options_short_circuit (World := nat)
           (Stub.preflight "/anything") fresh).
  reflexivity.
Defined.

(* ================================================================== *)
(** ** Properties of [String(...)] *)

(** Induction on values, through the elements of arrays and the members of
    objects. *)
Lemma JSVal_nested_ind (P : JSVal -> Prop) :
  P JUndefined -> P JNull -> (forall b, P (JBool b)) ->
  (forall z, P (JNum z)) -> (forall s, P (JStr s)) ->
  (forall elems, Forall P elems -> P (JArr elems)) ->
  (forall props, Forall (fun kv => P (snd kv)) props -> P (JObj props)) ->
  forall v, P v.
Proof.
  intros Hu Hn Hb Hz Hs Ha Ho.
  fix IH 1. intros [| |b|z|s|elems|props].
  - exact Hu.
  - exact Hn.
  - apply Hb.
  - apply Hz.
  - apply Hs.
  - apply Ha. induction elems as [|x elems IHe]; constructor;
      [apply IH | exact IHe].
  - apply Ho. induction props as [|[k x] props IHp]; constructor;
      [apply IH | exact IHp].
Qed.

(** [join] on a non-empty array: the first element, then the rest. *)
Lemma js_String_array (x : JSVal) (rest : list JSVal) :
  js_String (JArr (x :: rest)) =
  match js_element x with
  | Abrupt e => Abrupt e
  | Normal elt =>
      match rest with
      | [] => Normal elt
      | _ :: _ =>
          match js_String (JArr rest) with
          | Abrupt e => Abrupt e
          | Normal tail => Normal (elt ++ "," ++ tail)
          end
      end
  end.
Proof. destruct x; reflexivity. Qed.

Scheme string_of_min := Minimality for Spec.string_of Sort Prop
  with joined_min := Minimality for Spec.joined Sort Prop
  with element_min := Minimality for Spec.element Sort Prop.

(** [String] computes the rendering. *)
Lemma js_String_sound (v : JSVal) (s : string) :
  Spec.string_of v s -> js_String v = Normal s.
Proof.
  apply (string_of_min
           (fun v s => js_String v = Normal s)
           (fun l s => js_String (JArr l) = Normal s)
           (fun x s => js_element x = Normal s)); try reflexivity.
  - intros props H. simpl. rewrite H. reflexivity.
  - intros elems t _ H. exact H.
  - intros x t _ H. rewrite js_String_array, H. reflexivity.
  - intros x y rest t u _ Hx _ Hrest.
    rewrite js_String_array, Hx, Hrest. reflexivity.
  - intros x t Hu Hn _ H. destruct x; try exact H; congruence.
Qed.

(** The only error [String] raises is the conversion [TypeError]. *)
Lemma js_String_abrupt (v : JSVal) (e : Thrown) :
  js_String v = Abrupt e -> e = cannot_convert.
Proof.
  revert e. induction v as [| | b | z | s | elems IH | props _]
    using JSVal_nested_ind; intros e; try discriminate.
  - destruct b; discriminate.
  - induction IH as [|x rest Hx _ IHrest]; [discriminate|].
    rewrite js_String_array.
    destruct (js_element x) as [elt|e'] eqn:Ex.
    + destruct rest as [|y rest]; [discriminate|].
      destruct (js_String (JArr (y :: rest))) as [tail|e''] eqn:Er;
        [discriminate|].
      intros H. injection H as <-. apply IHrest. reflexivity.
    + intros H. injection H as <-. apply Hx.
      destruct x; try discriminate Ex; exact Ex.
  - simpl. destruct (has_key "toString" props); [|discriminate].
    intros H. injection H as <-. reflexivity.
Qed.

(** Whatever [String] returns is the rendering. *)
Lemma js_String_complete (v : JSVal) (s : string) :
  js_String v = Normal s -> Spec.string_of v s.
Proof.
  revert s. induction v as [| | b | z | t | elems IH | props _]
    using JSVal_nested_ind; intros s H.
  - injection H as <-. constructor.
  - injection H as <-. constructor.
  - destruct b; injection H as <-; constructor.
  - injection H as <-. constructor.
  - injection H as <-. constructor.
  - constructor. revert s H.
    induction IH as [|x rest Hx _ IHrest]; intros s H.
    + injection H as <-. constructor.
    + rewrite js_String_array in H.
      assert (Hel : forall t, js_element x = Normal t -> Spec.element x t).
      { intros t Ht.
        destruct x;
          [injection Ht as <-; apply Spec.element_undefined
          |injection Ht as <-; apply Spec.element_null
          |..];
          (apply Spec.element_other; [discriminate | discriminate |];
           apply Hx; exact Ht). }
      destruct (js_element x) as [elt|e'] eqn:Ex; [|discriminate H].
      destruct rest as [|y rest].
      * injection H as <-. apply Spec.joined_last. apply Hel. reflexivity.
      * destruct (js_String (JArr (y :: rest))) as [tail|e''] eqn:Er;
          [|discriminate H].
        injection H as <-. apply Spec.joined_more.
        -- apply Hel. reflexivity.
        -- apply IHrest. reflexivity.
  - simpl in H. destruct (has_key "toString" props) eqn:E; [discriminate H|].
    injection H as <-. constructor. exact E.
Qed.

(** The inner [catch] renders a failure exactly when the failure has a
    rendering; otherwise it throws the conversion [TypeError] itself. *)
Lemma failure_detail_rendering (error : Thrown) (detail : string) :
  Spec.rendering error detail -> failure_detail error = Normal detail.
Proof.
  intros [message | v s H]; [reflexivity|].
  apply js_String_sound. exact H.
Qed.

Lemma failure_detail_no_rendering (error : Thrown) :
  (forall detail, ~ Spec.rendering error detail) ->
  failure_detail error = Abrupt cannot_convert.
Proof.
  intros Hno. destruct error as [message | v].
  - exfalso. apply (Hno message). constructor.
  - simpl. destruct (js_String v) as [s|e] eqn:E.
    + exfalso. apply (Hno s). constructor.
      apply js_String_complete. exact E.
    + rewrite (js_String_abrupt _ _ E). reflexivity.
Qed.

Lemma failure_detail_cases (error : Thrown) :
  (exists detail, Spec.rendering error detail /\
                  failure_detail error = Normal detail) \/
  ((forall detail, ~ Spec.rendering error detail) /\
   failure_detail error = Abrupt cannot_convert).
Proof.
  destruct (failure_detail error) as [detail|e] eqn:E.
  - left. exists detail. split; [|reflexivity].
    destruct error as [message | v].
    + injection E as <-. constructor.
    + constructor. apply js_String_complete. exact E.
  - right. assert (Hno : forall detail, ~ Spec.rendering error detail).
    { intros detail H. rewrite (failure_detail_rendering _ _ H) in E.
      discriminate E. }
    split; [exact Hno|]. rewrite <- E.
    apply failure_detail_no_rendering. exact Hno.
Qed.

(* ================================================================== *)
(** ** Properties of the handler of [POST /mcp] *)

Lemma valid_envelope_object (request : JSVal) :
  valid_envelope request -> exists props, request = JObj props.
Proof.
  unfold valid_envelope.
  destruct request; simpl; intros H; try discriminate H.
  eexists. reflexivity.
Qed.

Lemma strict_eq_str_false (v : JSVal) (lit : string) :
  v <> JStr lit -> strict_eq_str v lit = false.
Proof.
  intros H. destruct v; simpl; try reflexivity.
  apply String.eqb_neq. intros ->. apply H. reflexivity.
Qed.

(** On a valid envelope the handler sends, with the status untouched, the
    response object that [dispatch] builds. *)
Lemma mcp_handler_valid {World} tools
    (handleToolCall : JSVal -> JSVal -> World -> Completion JSVal * World)
    req res (s : St World) (response : JSVal) (s' : St World) :
  valid_envelope (body req) ->
  dispatch tools handleToolCall (body req) s = (Normal response, s') ->
  mcp_handler tools handleToolCall req res s = (Normal (json res response), s').
Proof.
  intros Hv Hd.
  destruct (valid_envelope_object _ Hv) as [props Hb].
  unfold valid_envelope in Hv.
  unfold mcp_handler, try_catch, bind, lift, ret.
  rewrite Hb in *. simpl in Hv. simpl get. rewrite Hv. simpl.
  rewrite Hd. reflexivity.
Qed.

(** The Envelope Validator, in general: a body that is an object or an array
    and whose [jsonrpc] is not the string ["2.0"] is answered 400 with
    [-32600], the collaborator untouched, and [id] is the inbound [id] when
    that is truthy, [null] otherwise. *)
Lemma mcp_handler_invalid_request {World} tools
    (handleToolCall : JSVal -> JSVal -> World -> Completion JSVal * World)
    req res (s : St World) :
  body req <> JUndefined -> body req <> JNull ->
  prop (body req) "jsonrpc" <> JStr "2.0" ->
  exists r,
    mcp_handler tools handleToolCall req res s = (Normal r, s) /\
    statusCode r = 400 /\
    error_code r = JNum (-32600) /\
    response_id r = js_or (prop (body req) "id") JNull.
Proof.
  intros Hu Hn Hj.
  assert (Hg : forall k, get (body req) k = Normal (prop (body req) k)).
  { intros k. destruct (body req); try reflexivity; congruence. }
  assert (Ht : negb (truthy (prop (body req) "jsonrpc"))
               || negb (strict_eq_str (prop (body req) "jsonrpc") "2.0")
               = true).
  { rewrite (strict_eq_str_false _ _ Hj). apply orb_true_r. }
  unfold mcp_handler, try_catch, bind, lift, ret.
  rewrite !Hg, Ht.
  eexists. split; [reflexivity|]. repeat split.
Qed.

(** C2, at the failing input. A request with [jsonrpc: "1.0"] and [id: 0] is
    rejected with 400 and [-32600], but the response's [id] is [null], not
    the inbound [0]: [request.id || null] discards every falsy identifier. *)
Theorem invalid_request_drops_id_zero {World} tools
    (handleToolCall : JSVal -> JSVal -> World -> Completion JSVal * World)
    res (s : St World) :
  let request := JObj [("jsonrpc", JStr "1.0"); ("id", JNum 0);
                       ("method", JStr "initialize")] in
  exists r,
    mcp_handler tools handleToolCall (Stub.post request) res s
    = (Normal r, s) /\
    statusCode r = 400 /\
    error_code r = JNum (-32600) /\
    prop request "id" = JNum 0 /\
    response_id r = JNull.
Proof.
  simpl. eexists. split; [reflexivity|]. repeat split.
Qed.

(** C5. On a valid envelope whose [method] is none of ["initialize"],
    ["tools/list"], ["tools/call"] (a missing [method] is [undefined], a
    non-string never equals a string), the response carries
    [error.code = -32601]; it is sent with the status untouched, echoes the
    [id], and the collaborator is not called. *)
Theorem unknown_method_not_found {World} tools
    (handleToolCall : JSVal -> JSVal -> World -> Completion JSVal * World)
    req res (s : St World) :
  valid_envelope (body req) ->
  prop (body req) "method" <> JStr "initialize" ->
  prop (body req) "method" <> JStr "tools/list" ->
  prop (body req) "method" <> JStr "tools/call" ->
  exists r,
    mcp_handler tools handleToolCall req res s = (Normal r, s) /\
    statusCode r = statusCode res /\
    error_code r = JNum (-32601) /\
    response_id r = prop (body req) "id".
Proof.
  intros Hv H1 H2 H3.
  destruct (valid_envelope_object _ Hv) as [props Hb].
  eexists. split.
  - apply mcp_handler_valid; [exact Hv|].
    unfold dispatch, bind, lift, ret. rewrite Hb in *.
    cbn [get prop] in *.
    rewrite (strict_eq_str_false _ _ H1), (strict_eq_str_false _ _ H2),
      (strict_eq_str_false _ _ H3).
    reflexivity.
  - rewrite Hb. repeat split.
Qed.

Lemma unknown_method_not_found_witness :
  let req := Stub.post (JObj [("jsonrpc", JStr "2.0"); ("id", JStr "a1")]) in
  valid_envelope (body req) /\
  prop (body req) "method" = JUndefined /\
  exists r,
    mcp_handler Stub.tools Stub.handleToolCall req fresh Stub.start
    = (Normal r, Stub.start) /\
    statusCode r = statusCode fresh /\
    error_code r = JNum (-32601) /\
    response_id r = prop (body req) "id".
Proof.
  split; [reflexivity|]. split; [reflexivity|].
  apply (unknown_method_not_found Stub.tools Stub.handleToolCall
           (Stub.post (JObj [("jsonrpc", JStr "2.0"); ("id", JStr "a1")]))
           fresh Stub.start); [reflexivity | discriminate ..].
Defined.

(** What [dispatch] does on a [tools/call] request: the branch of
    [tools_call]. *)
Lemma dispatch_tools_call {World} tools
    (handleToolCall : JSVal -> JSVal -> World -> Completion JSVal * World)
    (request : JSVal) :
  valid_envelope request ->
  prop request "method" = JStr "tools/call" ->
  dispatch tools handleToolCall request = tools_call handleToolCall request.
Proof.
  intros Hv Hm.
  destruct (valid_envelope_object _ Hv) as [props ->].
  unfold dispatch, bind, lift. cbn [get prop] in *. rewrite Hm.
  reflexivity.
Qed.

(** C4. On a valid [tools/call] envelope whose tool name is falsy (no
    [params], no [name] in them, or the empty string among others), the
    response carries [error.code = -32602] and is the same whatever the
    collaborator is; the state, with its log of collaborator calls, is left
    as it was: the collaborator is not invoked. *)
Theorem tools_call_without_name {World} tools req res (s : St World) :
  valid_envelope (body req) ->
  prop (body req) "method" = JStr "tools/call" ->
  truthy (tool_name (body req)) = false ->
  exists r,
    (forall handleToolCall,
        mcp_handler tools handleToolCall req res s = (Normal r, s)) /\
    statusCode r = statusCode res /\
    error_code r = JNum (-32602) /\
    response_id r = prop (body req) "id".
Proof.
  intros Hv Hm Hn.
  destruct (valid_envelope_object _ Hv) as [props Hb].
  eexists. split.
  - intros h. apply mcp_handler_valid; [exact Hv|].
    rewrite (dispatch_tools_call _ _ _ Hv Hm).
    unfold tool_name in Hn.
    unfold tools_call, bind, lift, ret. rewrite Hb in *.
    cbn [get prop] in *. rewrite Hn. reflexivity.
  - rewrite Hb. repeat split.
Qed.

Lemma tools_call_without_name_witness :
  let absent := Stub.post (JObj [("jsonrpc", JStr "2.0"); ("id", JNum 4);
                                 ("method", JStr "tools/call")]) in
  let empty := Stub.post (Stub.call_request (JStr EmptyString)) in
  (tool_name (body absent) = JUndefined /\
   exists r,
     (forall handleToolCall,
         mcp_handler Stub.tools handleToolCall absent fresh Stub.start
         = (Normal r, Stub.start)) /\
     statusCode r = statusCode fresh /\
     error_code r = JNum (-32602) /\
     response_id r = prop (body absent) "id") /\
  (tool_name (body empty) = JStr EmptyString /\
   exists r,
     (forall handleToolCall,
         mcp_handler Stub.tools handleToolCall empty fresh Stub.start
         = (Normal r, Stub.start)) /\
     statusCode r = statusCode fresh /\
     error_code r = JNum (-32602) /\
     response_id r = prop (body empty) "id").
Proof.
  split; (split; [reflexivity|]).
  - apply (tools_call_without_name (World := nat) Stub.tools
             (Stub.post (JObj [("jsonrpc", JStr "2.0"); ("id", JNum 4);
                               ("method", JStr "tools/call")]))
             fresh Stub.start); reflexivity.
  - apply (tools_call_without_name (World := nat) Stub.tools
             (Stub.post (Stub.call_request (JStr EmptyString)))
             fresh Stub.start); reflexivity.
Defined.

(** A failure that leaves [dispatch] on a valid envelope reaches the outer
    [catch], which answers 500 when it can render it. *)
Lemma mcp_handler_backstop {World} tools
    (handleToolCall : JSVal -> JSVal -> World -> Completion JSVal * World)
    req res (s : St World) (e : Thrown) (data : string) (s' : St World) :
  valid_envelope (body req) ->
  dispatch tools handleToolCall (body req) s = (Abrupt e, s') ->
  failure_detail e = Normal data ->
  mcp_handler tools handleToolCall req res s =
  (Normal (json (status res 500)
             (JObj [("jsonrpc", JStr "2.0");
                    ("id", js_or (prop (body req) "id") JNull);
                    ("error", JObj [("code", JNum (-32603));
                                    ("message", JStr "Internal error");
                                    ("data", JStr data)])])), s').
Proof.
  intros Hv Hd He.
  destruct (valid_envelope_object _ Hv) as [props Hb].
  unfold valid_envelope in Hv.
  unfold mcp_handler, try_catch, bind, lift, ret.
  rewrite Hb in *. simpl in Hv. simpl get. rewrite Hv. simpl.
  rewrite Hd, He. reflexivity.
Qed.

(** The [tools/call] branch after one call of the collaborator that leaves
    its world in [w]: the call is appended to the log; a result is wrapped,
    a failure is rendered into the [-32603] error, and a failure that cannot
    be rendered leaves the branch as the error of the rendering. *)
Lemma tools_call_awaits {World}
    (handleToolCall : JSVal -> JSVal -> World -> Completion JSVal * World)
    (request : JSVal) (s : St World) (outcome : Completion JSVal) (w : World) :
  valid_envelope request ->
  truthy (tool_name request) = true ->
  handleToolCall (tool_name request) (tool_arguments request) (world s)
  = (outcome, w) ->
  tools_call handleToolCall request s =
  (match outcome with
   | Normal result =>
       Normal (JObj [("jsonrpc", JStr "2.0"); ("id", prop request "id");
                     ("result", result)])
   | Abrupt error =>
       match failure_detail error with
       | Normal data =>
           Normal (JObj [("jsonrpc", JStr "2.0"); ("id", prop request "id");
                         ("error", JObj [("code", JNum (-32603));
                                         ("message", JStr "Internal error");
                                         ("data", JStr data)])])
       | Abrupt e => Abrupt e
       end
   end,
   {| world := w;
      calls := calls s ++ [(tool_name request, tool_arguments request)] |}).
Proof.
  intros Hv Hn Hc.
  destruct (valid_envelope_object _ Hv) as [props ->].
  unfold tool_name, tool_arguments in *.
  unfold tools_call, try_catch, await_call, bind, lift, ret.
  cbn [get prop] in *. rewrite Hn. cbn [negb]. rewrite Hc.
  destruct outcome as [result | error]; [reflexivity|].
  destruct (failure_detail error); reflexivity.
Qed.




(** C7. On a [tools/call] request with a truthy tool name, when the
    collaborator returns [result], the [result] member of the response is
    that very value; the collaborator has been called once, with the name
    and [arguments || {}], and the response echoes the [id]. *)
Theorem tools_call_success {World} tools
    (handleToolCall : JSVal -> JSVal -> World -> Completion JSVal * World)
    req res (s : St World) (result : JSVal) (w : World) :
  valid_envelope (body req) ->
  prop (body req) "method" = JStr "tools/call" ->
  truthy (tool_name (body req)) = true ->
  handleToolCall (tool_name (body req)) (tool_arguments (body req)) (world s)
  = (Normal result, w) ->
  exists r,
    mcp_handler tools handleToolCall req res s
    = (Normal r,
       {| world := w;
          calls := calls s ++ [(tool_name (body req),
                                tool_arguments (body req))] |}) /\
    statusCode r = statusCode res /\
    response_result r = result /\
    prop (json_body r) "error" = JUndefined /\
    response_id r = prop (body req) "id".
Proof.
  intros Hv Hm Hn Hc.
  eexists. split.
  - apply mcp_handler_valid; [exact Hv|].
    rewrite (dispatch_tools_call _ _ _ Hv Hm).
    apply (tools_call_awaits _ _ _ _ _ Hv Hn Hc).
  - repeat split.
Qed.

Lemma tools_call_success_witness :
  let req := Stub.post (Stub.call_request (JStr "readwise_list_highlights")) in
  Stub.handleToolCall (tool_name (body req)) (tool_arguments (body req))
                      (world Stub.start)
  = (Normal Stub.tool_result, 1%nat) /\
  exists r,
    mcp_handler Stub.tools Stub.handleToolCall req fresh Stub.start
    = (Normal r,
       {| world := 1%nat;
          calls := calls Stub.start ++ [(tool_name (body req),
                                         tool_arguments (body req))] |}) /\
    statusCode r = statusCode fresh /\
    response_result r = Stub.tool_result /\
    prop (json_body r) "error" = JUndefined /\
    response_id r = prop (body req) "id".
Proof.
  split; [reflexivity|].
  apply (tools_call_success Stub.tools Stub.handleToolCall
           (Stub.post (Stub.call_request (JStr "readwise_list_highlights")))
           fresh Stub.start Stub.tool_result 1%nat); reflexivity.
Defined.

(** The handler of [POST /mcp] is reached with the status Express starts
    from: the CORS middleware only adds headers, and the Auth Gate passes the
    response on as it is. *)
Lemma post_mcp_reaches_handler {World} (MCP_API_KEY : option string) tools
    (handleToolCall : JSVal -> JSVal -> World -> Completion JSVal * World)
    req res :
  method req <> "OPTIONS" ->
  exists res',
    statusCode res' = statusCode res /\
    post_mcp MCP_API_KEY tools handleToolCall req res =
    apiKeyAuth MCP_API_KEY req res'
      (fun res => mcp_handler tools handleToolCall req res).
Proof.
  intros Hm. apply String.eqb_neq in Hm.
  unfold post_mcp, corsMiddleware. rewrite Hm.
  eexists. split; [|reflexivity]. reflexivity.
Qed.

(* ================================================================== *)
(** ** Properties of the event stream *)

Lemma run_app (c : Conn) (e1 e2 : list Event) :
  run c (e1 ++ e2)%list = run (run c e1) e2.
Proof. unfold run. apply fold_left_app. Qed.

Lemma repeat_snoc {A} (x : A) (k : nat) : (repeat x k ++ [x])%list = repeat x (S k).
Proof. symmetry. apply repeat_cons. Qed.

(** A step writes nothing, or one keep-alive. *)
Lemma step_chunks (c : Conn) (e : Event) :
  chunks (response (step c e)) = chunks (response c) \/
  chunks (response (step c e))
  = (chunks (response c) ++ [keepalive_event])%list.
Proof.
  destruct e; simpl.
  - unfold tick. destruct (keepAlive c) as [t|].
    + destruct (remaining t <=? 1); simpl; auto.
    + auto.
  - auto.
Qed.

(** Whatever happens to a stream, its output only grows by keep-alives. *)
Lemma run_chunks (events : list Event) (c : Conn) :
  exists k,
    chunks (response (run c events))
    = (chunks (response c) ++ repeat keepalive_event k)%list.
Proof.
  revert c. induction events as [|e events IH]; intros c.
  - exists 0%nat. simpl. rewrite app_nil_r. reflexivity.
  - destruct (IH (step c e)) as [k Hk].
    change (run c (e :: events)) with (run (step c e) events).
    rewrite Hk.
    destruct (step_chunks c e) as [-> | ->].
    + exists k. reflexivity.
    + exists (S k). rewrite <- app_assoc. reflexivity.
Qed.

(** Once the timer is cleared, nothing is written any more. *)
Lemma run_cleared (events : list Event) (c : Conn) :
  keepAlive c = None ->
  keepAlive (run c events) = None /\
  chunks (response (run c events)) = chunks (response c).
Proof.
  revert c. induction events as [|e events IH]; intros c Hc.
  - split; [exact Hc | reflexivity].
  - change (run c (e :: events)) with (run (step c e) events).
    assert (Hs : keepAlive (step c e) = None /\
                 chunks (response (step c e)) = chunks (response c)).
    { destruct e; simpl.
      - unfold tick. rewrite Hc. split; [exact Hc | reflexivity].
      - split; reflexivity. }
    destruct Hs as [Hk Hch].
    destruct (IH _ Hk) as [H1 H2].
    split; [exact H1 | rewrite H2; exact Hch].
Qed.

(** The stream after [n] milliseconds without a close: the timer is
    [n mod 30000] milliseconds into its period and has fired [n / 30000]
    times. *)
Lemma run_ticks req res (n : nat) :
  let c := run (sse_handler req res) (repeat Tick n) in
  keepAlive c
  = Some {| period := 30000;
            remaining := 30000 - Z.of_nat n mod 30000 |} /\
  chunks (response c)
  = (chunks res ++ connection_event
       :: repeat keepalive_event (Z.to_nat (Z.of_nat n / 30000)))%list.
Proof.
  induction n as [|n [IHk IHc]].
  - split; reflexivity.
  - cbv zeta. rewrite <- repeat_snoc, run_app.
    set (c := run (sse_handler req res) (repeat Tick n)) in *.
    change (run c [Tick]) with (tick c).
    unfold tick. rewrite IHk. cbn [remaining period].
    assert (Hq : 0 <= Z.of_nat n / 30000) by (apply Z.div_pos; lia).
    destruct (30000 - Z.of_nat n mod 30000 <=? 1) eqn:Hdue.
    + apply Z.leb_le in Hdue.
      assert (Hmod : Z.of_nat (S n) mod 30000 = 0 /\
                     Z.of_nat (S n) / 30000 = Z.of_nat n / 30000 + 1).
      { rewrite Nat2Z.inj_succ. Z.div_mod_to_equations. lia. }
      destruct Hmod as [-> ->]. cbn [keepAlive response].
      split; [reflexivity|].
      unfold on_keepAlive. cbn [write chunks]. rewrite IHc.
      rewrite Z2Nat.inj_add by lia.
      change (Z.to_nat 1) with 1%nat. rewrite Nat.add_1_r.
      rewrite <- repeat_snoc, <- app_assoc. reflexivity.
    + apply Z.leb_gt in Hdue.
      assert (Hmod : Z.of_nat (S n) mod 30000 = Z.of_nat n mod 30000 + 1 /\
                     Z.of_nat (S n) / 30000 = Z.of_nat n / 30000).
      { rewrite Nat2Z.inj_succ. Z.div_mod_to_equations. lia. }
      destruct Hmod as [-> ->]. cbn [keepAlive response].
      split; [|exact IHc].
      f_equal. f_equal. lia.
Qed.

(** C8. A stream opened by the handler of [GET /sse] first writes the
    connection event, once, and after it nothing but keep-alives, whatever
    happens; with no close, [n] milliseconds after the opening exactly
    [n / 30000] keep-alives have been written, one every 30000 ms (30 s);
    the client's close clears the timer and ends the response, and
    whatever follows the close, the output stays what it was before it. *)
Theorem sse_stream req res :
  let c := sse_handler req res in
  connection_event <> keepalive_event /\
  (forall events, exists k,
      chunks (response (run c events))
      = (chunks res ++ connection_event :: repeat keepalive_event k)%list) /\
  (forall n : nat,
      chunks (response (run c (repeat Tick n)))
      = (chunks res ++ connection_event
           :: repeat keepalive_event (Z.to_nat (Z.of_nat n / 30000)))%list) /\
  (forall before after,
      keepAlive (run c (before ++ [Close])%list) = None /\
      ended (response (run c (before ++ [Close])%list)) = true /\
      chunks (response (run c (before ++ Close :: after)%list))
      = chunks (response (run c before))).
Proof.
  cbv zeta. split; [discriminate|]. split; [|split].
  - intros events.
    destruct (run_chunks events (sse_handler req res)) as [k Hk].
    exists k. rewrite Hk. simpl. rewrite <- app_assoc. reflexivity.
  - intros n. apply (run_ticks req res n).
  - intros before after.
    assert (Hclosed : keepAlive (run (sse_handler req res) (before ++ [Close])%list)
                      = None /\
                      ended (response (run (sse_handler req res)
                                           (before ++ [Close])%list)) = true).
    { rewrite run_app. split; reflexivity. }
    destruct Hclosed as [Hk He].
    split; [exact Hk|]. split; [exact He|].
    change (before ++ Close :: after)%list
      with (before ++ [Close] ++ after)%list.
    rewrite app_assoc, run_app.
    destruct (run_cleared after _ Hk) as [_ ->].
    rewrite run_app. reflexivity.
Qed.

(* ================================================================== *)
(** ** The handler of [POST /mcp] on every input *)

Lemma strict_eq_str_true (v : JSVal) (lit : string) :
  strict_eq_str v lit = true -> v = JStr lit.
Proof.
  destruct v; simpl; try discriminate.
  intros H. apply String.eqb_eq in H. rewrite H. reflexivity.
Qed.

(** What [dispatch] does on a valid envelope. The collaborator is called at
    most once, and only by a [tools/call] with a truthy name. A response
    object carries the version tag, the echoed [id] and one of [result] and
    [error]; [error] is never [undefined], and [result] is only when the
    collaborator resolved to [undefined]. The one failure that leaves
    [dispatch] is the conversion error of a rejection that has no string
    rendering. *)
Lemma dispatch_cases {World} tools
    (handleToolCall : JSVal -> JSVal -> World -> Completion JSVal * World)
    (request : JSVal) (s : St World) :
  valid_envelope request ->
  exists c s',
    dispatch tools handleToolCall request s = (c, s') /\
    (s' = s \/
     (prop request "method" = JStr "tools/call" /\
      truthy (tool_name request) = true /\
      s' = {| world := snd (handleToolCall (tool_name request)
                              (tool_arguments request) (world s));
              calls := calls s ++ [(tool_name request,
                                    tool_arguments request)] |})) /\
    match c with
    | Normal response =>
        prop response "jsonrpc" = JStr "2.0" /\
        prop response "id" = prop request "id" /\
        has_own response "error" = negb (has_own response "result") /\
        serialized response "error" = has_own response "error" /\
        (serialized response "result" = has_own response "result" \/
         exists w, handleToolCall (tool_name request) (tool_arguments request)
                     (world s) = (Normal JUndefined, w))
    | Abrupt e =>
        e = cannot_convert /\
        prop request "method" = JStr "tools/call" /\
        exists v w,
          handleToolCall (tool_name request) (tool_arguments request)
            (world s) = (Abrupt (ThrownValue v), w) /\
          forall t, ~ Spec.string_of v t
    end.
Proof.
  intros Hv.
  destruct (strict_eq_str (prop request "method") "tools/call") eqn:Hcall.
  - apply strict_eq_str_true in Hcall.
    rewrite (dispatch_tools_call _ _ _ Hv Hcall).
    destruct (truthy (tool_name request)) eqn:Hn.
    + destruct (handleToolCall (tool_name request) (tool_arguments request)
                  (world s)) as [outcome w] eqn:Hc.
      rewrite (tools_call_awaits _ _ _ _ _ Hv Hn Hc).
      do 2 eexists. split; [reflexivity|].
      split; [right; split; [exact Hcall|]; split; reflexivity|].
      destruct outcome as [result | error].
      * repeat split.
        destruct result; try (left; reflexivity).
        right. exists w. reflexivity.
      * destruct error as [message | v]; cbn [failure_detail].
        -- repeat split. left. reflexivity.
        -- destruct (js_String v) as [data | e] eqn:E.
           ++ repeat split. left. reflexivity.
           ++ split; [exact (js_String_abrupt _ _ E)|].
              split; [exact Hcall|]. exists v, w. split; [reflexivity|].
              intros t Ht. rewrite (js_String_sound _ _ Ht) in E.
              discriminate E.
    + destruct (valid_envelope_object _ Hv) as [props ->].
      unfold tool_name in Hn.
      unfold tools_call, bind, lift, ret. cbn [get prop] in *. rewrite Hn.
      do 2 eexists. split; [reflexivity|].
      split; [left; reflexivity|]. repeat split. left. reflexivity.
  - destruct (valid_envelope_object _ Hv) as [props ->].
    unfold dispatch, bind, lift, ret. cbn [get prop] in *. rewrite Hcall.
    destruct (strict_eq_str (lookup "method" props) "initialize");
      [|destruct (strict_eq_str (lookup "method" props) "tools/list")];
      (do 2 eexists; split; [reflexivity|];
       split; [left; reflexivity|]; repeat split; left; reflexivity).
Qed.

(** The two ways the handler answers without dispatching. *)
Lemma mcp_handler_rejects {World} tools
    (handleToolCall : JSVal -> JSVal -> World -> Completion JSVal * World)
    req res (s : St World) :
  body req <> JUndefined -> body req <> JNull ->
  strict_eq_str (prop (body req) "jsonrpc") "2.0" = false ->
  mcp_handler tools handleToolCall req res s =
  (Normal (json (status res 400)
             (JObj [("jsonrpc", JStr "2.0");
                    ("error", JObj [("code", JNum (-32600));
                                    ("message", JStr "Invalid Request")]);
                    ("id", js_or (prop (body req) "id") JNull)])), s).
Proof.
  intros Hu Hn Hj.
  assert (Hg : forall k, get (body req) k = Normal (prop (body req) k)).
  { intros k. destruct (body req); try reflexivity; congruence. }
  unfold mcp_handler, try_catch, bind, lift, ret.
  rewrite !Hg, Hj. rewrite orb_true_r. reflexivity.
Qed.

Lemma mcp_handler_nullish {World} tools
    (handleToolCall : JSVal -> JSVal -> World -> Completion JSVal * World)
    req res (s : St World) :
  body req = JUndefined \/ body req = JNull ->
  exists data,
    mcp_handler tools handleToolCall req res s =
    (Normal (json (status res 500)
               (JObj [("jsonrpc", JStr "2.0");
                      ("id", JNull);
                      ("error",
                       JObj [("code", JNum (-32603));
                             ("message", JStr "Internal error");
                             ("data", JStr data)])])),
     s).
Proof.
  unfold mcp_handler, try_catch, bind, lift, ret.
  intros [-> | ->]; eexists; reflexivity.
Qed.

Lemma nullish_dec (v : JSVal) :
  (v = JUndefined \/ v = JNull) \/ (v <> JUndefined /\ v <> JNull).
Proof. destruct v; auto; right; split; discriminate. Qed.

(** Every answer of the handler on a valid envelope: sent as it is with the
    status untouched and the [id] echoed, or, when a rejection of the
    collaborator has no string rendering, by the outer [catch]. *)
Lemma mcp_handler_valid_cases {World} tools
    (handleToolCall : JSVal -> JSVal -> World -> Completion JSVal * World)
    req res (s : St World) :
  valid_envelope (body req) ->
  exists r s' b,
    mcp_handler tools handleToolCall req res s = (Normal r, s') /\
    sent r = Some (Json b) /\
    ended r = true /\
    headers r = headers res /\
    chunks r = chunks res /\
    prop b "jsonrpc" = JStr "2.0" /\
    has_own b "error" = negb (has_own b "result") /\
    serialized b "error" = has_own b "error" /\
    (serialized b "result" = has_own b "result" \/
     exists w, handleToolCall (tool_name (body req))
                 (tool_arguments (body req)) (world s)
               = (Normal JUndefined, w)) /\
    (s' = s \/
     (prop (body req) "method" = JStr "tools/call" /\
      truthy (tool_name (body req)) = true /\
      calls s' = (calls s ++ [(tool_name (body req),
                               tool_arguments (body req))])%list)) /\
    ((statusCode r = statusCode res /\
      response_id r = prop (body req) "id") \/
     (statusCode r = 500 /\
      response_id r = js_or (prop (body req) "id") JNull /\
      prop (body req) "method" = JStr "tools/call" /\
      exists v w,
        handleToolCall (tool_name (body req)) (tool_arguments (body req))
          (world s) = (Abrupt (ThrownValue v), w) /\
        forall t, ~ Spec.string_of v t)).
Proof.
  intros Hv.
  destruct (dispatch_cases tools handleToolCall _ s Hv)
    as (c & s' & Hd & Hs & Hc).
  assert (Hs' : s' = s \/
                (prop (body req) "method" = JStr "tools/call" /\
                 truthy (tool_name (body req)) = true /\
                 calls s' = (calls s ++ [(tool_name (body req),
                                          tool_arguments (body req))])%list)).
  { destruct Hs as [-> | (Hm & Hn & ->)];
      [left; reflexivity | right; repeat split; assumption]. }
  destruct c as [response | e].
  - destruct Hc as (Htag & Hid & Hxor & Hser & Hres).
    rewrite (mcp_handler_valid _ _ _ _ _ _ _ Hv Hd).
    exists (json res response), s', response.
    repeat split; try assumption. left. split; [reflexivity | exact Hid].
  - destruct Hc as (-> & Hm & Hthrow).
    rewrite (mcp_handler_backstop _ _ _ _ _ _ _ _ Hv Hd eq_refl).
    do 3 eexists. split; [reflexivity|].
    repeat split; try assumption; try (left; reflexivity).
    right. repeat split; assumption.
Qed.

(** The shape of every answer of the handler. *)
Lemma mcp_handler_shape {World} tools
    (handleToolCall : JSVal -> JSVal -> World -> Completion JSVal * World)
    req res (s : St World) :
  exists r s' b,
    mcp_handler tools handleToolCall req res s = (Normal r, s') /\
    sent r = Some (Json b) /\
    ended r = true /\
    headers r = headers res /\
    chunks r = chunks res /\
    prop b "jsonrpc" = JStr "2.0" /\
    has_own b "error" = negb (has_own b "result") /\
    serialized b "error" = has_own b "error" /\
    (serialized b "result" = has_own b "result" \/
     exists w, handleToolCall (tool_name (body req))
                 (tool_arguments (body req)) (world s)
               = (Normal JUndefined, w)).
Proof.
  destruct (nullish_dec (body req)) as [Hnull | [Hu Hn]].
  - destruct (mcp_handler_nullish tools handleToolCall req res s Hnull)
      as [data ->].
    do 3 eexists. repeat split. left. reflexivity.
  - destruct (strict_eq_str (prop (body req) "jsonrpc") "2.0") eqn:Hj.
    + apply strict_eq_str_true in Hj.
      destruct (mcp_handler_valid_cases tools handleToolCall req res s Hj)
        as (r & s' & b & H1 & H2 & H3 & H4 & H5 & H6 & H7 & H8 & H9 & _).
      exists r, s', b. repeat split; assumption.
    + rewrite (mcp_handler_rejects _ _ _ _ _ Hu Hn Hj).
      do 3 eexists. repeat split. left. reflexivity.
Qed.

(** The handler never throws: whatever the body and whatever the
    collaborator does, it completes normally with an ended JSON response,
    leaving the headers and the written chunks alone. The object it sends
    is tagged ["2.0"] and has one of the members [result] and [error], not
    both. In the body as serialised the tag is there and exactly one of the
    two members, except that a [result] holding [undefined] is left out:
    that body has neither, and it arises only when the collaborator resolved
    to [undefined]. *)
Theorem mcp_handler_always_responds {World} tools
    (handleToolCall : JSVal -> JSVal -> World -> Completion JSVal * World)
    req res (s : St World) :
  exists r s' b,
    mcp_handler tools handleToolCall req res s = (Normal r, s') /\
    sent r = Some (Json b) /\
    ended r = true /\
    headers r = headers res /\
    chunks r = chunks res /\
    prop b "jsonrpc" = JStr "2.0" /\
    serialized b "jsonrpc" = true /\
    has_own b "error" = negb (has_own b "result") /\
    ((serialized b "error" = true /\ serialized b "result" = false) \/
     (serialized b "error" = false /\ serialized b "result" = true) \/
     (serialized b "error" = false /\ serialized b "result" = false /\
      has_own b "result" = true /\ prop b "result" = JUndefined /\
      exists w, handleToolCall (tool_name (body req))
                  (tool_arguments (body req)) (world s)
                = (Normal JUndefined, w))).
Proof.
  destruct (mcp_handler_shape tools handleToolCall req res s)
    as (r & s' & b & H1 & H2 & H3 & H4 & H5 & Htag & Hxor & Herr & Hres).
  exists r, s', b. repeat (split; [assumption|]).
  assert (Hobj : exists props, b = JObj props).
  { destruct b; simpl in Htag; try discriminate Htag. eexists. reflexivity. }
  destruct Hobj as [props ->].
  unfold serialized, has_own in *. cbn [prop] in *.
  assert (Hk : has_key "jsonrpc" props = true).
  { clear - Htag. induction props as [|[k v] props IH]; simpl in *;
      [discriminate Htag|].
    destruct (k =? "jsonrpc")%string; [reflexivity | apply IH, Htag]. }
  split; [rewrite Hk, Htag; reflexivity|].
  split; [exact Hxor|].
  destruct (has_key "result" props) eqn:Hr;
    destruct (has_key "error" props) eqn:He;
    cbn [negb andb] in *; try discriminate Hxor.
  - destruct (lookup "result" props) eqn:Hv;
      try (right; left; split; reflexivity).
    right. right. repeat split.
    destruct Hres as [Hres | Hres]; [discriminate Hres | exact Hres].
  - left. split; [exact Herr | reflexivity].
Qed.

(** A collaborator that resolves to [undefined]: the object sent has a
    [result] member, the body as serialised has neither [result] nor
    [error]. *)
Lemma resolved_undefined_body :
  exists r s' b,
    mcp_handler Stub.tools (Stub.resolving JUndefined)
                (Stub.post (Stub.call_request (JStr "X"))) fresh Stub.start
    = (Normal r, s') /\
    sent r = Some (Json b) /\
    has_own b "result" = true /\
    serialized b "result" = false /\
    serialized b "error" = false.
Proof. do 3 eexists. repeat split. Qed.

(** On a valid envelope, whatever the method and the parameters, the
    response is sent with the status untouched and its [id] is the inbound
    [id] itself, a falsy one included. The one exception is a [tools/call]
    whose collaborator rejects with a value that has no string rendering:
    then the outer [catch] answers, with status 500 and with the [id] only
    if it is truthy. *)
Theorem valid_envelope_status_and_id {World} tools
    (handleToolCall : JSVal -> JSVal -> World -> Completion JSVal * World)
    req res (s : St World) :
  valid_envelope (body req) ->
  exists r s',
    mcp_handler tools handleToolCall req res s = (Normal r, s') /\
    ((statusCode r = statusCode res /\
      response_id r = prop (body req) "id") \/
     (statusCode r = 500 /\
      response_id r = js_or (prop (body req) "id") JNull /\
      prop (body req) "method" = JStr "tools/call" /\
      exists v w,
        handleToolCall (tool_name (body req)) (tool_arguments (body req))
          (world s) = (Abrupt (ThrownValue v), w) /\
        forall t, ~ Spec.string_of v t)).
Proof.
  intros Hv.
  destruct (mcp_handler_valid_cases tools handleToolCall req res s Hv)
    as (r & s' & b & H1 & _ & _ & _ & _ & _ & _ & _ & _ & _ & H).
  exists r, s'. split; assumption.
Qed.

(** Tool ["X"] of the stub fails with an [Error], which has a rendering:
    the [id] 0 is echoed. A collaborator rejecting with an object that has
    its own [toString] is answered by the outer [catch]: status 500, and the
    [id] 0 becomes [null]. *)
Lemma valid_envelope_status_and_id_witness :
  let req := Stub.post (JObj [("jsonrpc", JStr "2.0"); ("id", JNum 0);
                              ("method", JStr "tools/call");
                              ("params", JObj [("name", JStr "X")])]) in
  valid_envelope (body req) /\
  (exists r s',
      mcp_handler Stub.tools Stub.handleToolCall req fresh Stub.start
      = (Normal r, s') /\
      statusCode r = statusCode fresh /\
      response_id r = JNum 0) /\
  (exists r s',
      mcp_handler Stub.tools (Stub.rejecting (JObj [("toString", JNum 1)]))
                  req fresh Stub.start
      = (Normal r, s') /\
      statusCode r = 500 /\
      response_id r = JNull).
Proof.
  split; [reflexivity|]. split.
  - destruct (valid_envelope_status_and_id Stub.tools Stub.handleToolCall
                (Stub.post (JObj [("jsonrpc", JStr "2.0"); ("id", JNum 0);
                                  ("method", JStr "tools/call");
                                  ("params", JObj [("name", JStr "X")])]))
                fresh Stub.start eq_refl)
      as (r & s' & Hr & [[Hs Hid] | (_ & _ & _ & v & w & Hc & _)]).
    + exists r, s'. repeat split; assumption.
    + discriminate Hc.
  - destruct (valid_envelope_status_and_id Stub.tools
                (Stub.rejecting (JObj [("toString", JNum 1)]))
                (Stub.post (JObj [("jsonrpc", JStr "2.0"); ("id", JNum 0);
                                  ("method", JStr "tools/call");
                                  ("params", JObj [("name", JStr "X")])]))
                fresh Stub.start eq_refl)
      as (r & s' & Hr & [[Hs Hid] | (Hs & Hid & _)]).
    + vm_compute in Hr. injection Hr as <- _. discriminate Hs.
    + exists r, s'. repeat split; assumption.
Defined.

Lemma mcp_handler_invalid_request_witness :
  let req := Stub.post (JArr [JObj [("jsonrpc", JStr "2.0");
                                    ("id", JNum 3)]]) in
  let req' := Stub.post (JObj [("jsonrpc", JNum 2); ("id", JStr "r-1")]) in
  (prop (body req) "jsonrpc" = JUndefined /\
   exists r,
     mcp_handler Stub.tools Stub.handleToolCall req fresh Stub.start
     = (Normal r, Stub.start) /\
     statusCode r = 400 /\ error_code r = JNum (-32600) /\
     response_id r = js_or (prop (body req) "id") JNull) /\
  (js_or (prop (body req') "id") JNull = JStr "r-1" /\
   exists r,
     mcp_handler Stub.tools Stub.handleToolCall req' fresh Stub.start
     = (Normal r, Stub.start) /\
     statusCode r = 400 /\ error_code r = JNum (-32600) /\
     response_id r = js_or (prop (body req') "id") JNull).
Proof.
  split; (split; [reflexivity|]).
  - apply (mcp_handler_invalid_request Stub.tools Stub.handleToolCall
             (Stub.post (JArr [JObj [("jsonrpc", JStr "2.0");
                                     ("id", JNum 3)]]))
             fresh Stub.start); discriminate.
  - apply (mcp_handler_invalid_request Stub.tools Stub.handleToolCall
             (Stub.post (JObj [("jsonrpc", JNum 2); ("id", JStr "r-1")]))
             fresh Stub.start); discriminate.
Defined.

(** A body that is [undefined] or [null] makes the first property read
    throw; the outer [catch] answers 500 with [-32603], ["Internal error"]
    and [id = null], and the collaborator is not called. *)
Theorem nullish_body_internal_error {World} tools
    (handleToolCall : JSVal -> JSVal -> World -> Completion JSVal * World)
    req res (s : St World) :
  body req = JUndefined \/ body req = JNull ->
  exists r,
    mcp_handler tools handleToolCall req res s = (Normal r, s) /\
    statusCode r = 500 /\
    error_code r = JNum (-32603) /\
    error_message r = JStr "Internal error" /\
    response_id r = JNull /\
    response_result r = JUndefined.
Proof.
  intros H.
  destruct (mcp_handler_nullish tools handleToolCall req res s H)
    as [data ->].
  eexists. repeat split.
Qed.

Lemma nullish_body_internal_error_witness :
  body (Stub.post JUndefined) = JUndefined /\
  exists r,
    mcp_handler Stub.tools Stub.handleToolCall (Stub.post JUndefined) fresh
                Stub.start = (Normal r, Stub.start) /\
    statusCode r = 500 /\
    error_code r = JNum (-32603) /\
    error_message r = JStr "Internal error" /\
    response_id r = JNull /\
    response_result r = JUndefined.
Proof.
  split; [reflexivity|].
  apply (nullish_body_internal_error Stub.tools Stub.handleToolCall
           (Stub.post JUndefined) fresh Stub.start).
  left. reflexivity.
Defined.

(** One request makes at most one call of the collaborator: either the
    state is left as it was, or the request is a valid [tools/call] with a
    truthy name and exactly the call [(name, arguments || {})] has been
    appended to the log. *)
Theorem collaborator_called_at_most_once {World} tools
    (handleToolCall : JSVal -> JSVal -> World -> Completion JSVal * World)
    req res (s : St World) :
  exists r s',
    mcp_handler tools handleToolCall req res s = (Normal r, s') /\
    (s' = s \/
     (valid_envelope (body req) /\
      prop (body req) "method" = JStr "tools/call" /\
      truthy (tool_name (body req)) = true /\
      calls s' = (calls s ++ [(tool_name (body req),
                               tool_arguments (body req))])%list)).
Proof.
  destruct (nullish_dec (body req)) as [Hnull | [Hu Hn]].
  - destruct (mcp_handler_nullish tools handleToolCall req res s Hnull)
      as [data ->].
    do 2 eexists. split; [reflexivity|]. left. reflexivity.
  - destruct (strict_eq_str (prop (body req) "jsonrpc") "2.0") eqn:Hj.
    + apply strict_eq_str_true in Hj.
      destruct (mcp_handler_valid_cases tools handleToolCall req res s Hj)
        as (r & s' & b & Hr & _ & _ & _ & _ & _ & _ & _ & _ & Hs & _).
      exists r, s'. split; [exact Hr|].
      destruct Hs as [-> | (Hm & Hname & Hcalls)].
      * left. reflexivity.
      * right. repeat split; assumption.
    + rewrite (mcp_handler_rejects _ _ _ _ _ Hu Hn Hj).
      do 2 eexists. split; [reflexivity|]. left. reflexivity.
Qed.

(** [initialize] answers with the same fixed descriptor whatever else the
    request holds ([params] included) and whatever the tool catalogue and
    the collaborator are; it calls nothing. *)
Theorem initialize_fixed_result {World} req res (s : St World) :
  valid_envelope (body req) ->
  prop (body req) "method" = JStr "initialize" ->
  exists r,
    (forall tools handleToolCall,
        mcp_handler tools handleToolCall req res s = (Normal r, s)) /\
    response_result r = initialize_result /\
    prop (response_result r) "protocolVersion" = JStr "2024-11-05" /\
    has_own (json_body r) "error" = false /\
    response_id r = prop (body req) "id".
Proof.
  intros Hv Hm.
  destruct (valid_envelope_object _ Hv) as [props Hb].
  eexists. split.
  - intros tools h. apply mcp_handler_valid; [exact Hv|].
    unfold dispatch, bind, lift, ret. rewrite Hb in *.
    cbn [get prop] in *. rewrite Hm. reflexivity.
  - rewrite Hb. repeat split.
Qed.

Lemma initialize_fixed_result_witness :
  let req := Stub.post (JObj [("jsonrpc", JStr "2.0"); ("id", JStr "i");
                              ("method", JStr "initialize");
                              ("params", JObj [("protocolVersion",
                                                JStr "1999-01-01")])]) in
  valid_envelope (body req) /\
  exists r,
    (forall tools handleToolCall,
        mcp_handler (World := nat) tools handleToolCall req fresh Stub.start
        = (Normal r, Stub.start)) /\
    response_result r = initialize_result /\
    prop (response_result r) "protocolVersion" = JStr "2024-11-05" /\
    has_own (json_body r) "error" = false /\
    response_id r = prop (body req) "id".
Proof.
  split; [reflexivity|].
  apply (initialize_fixed_result (World := nat)
           (Stub.post (JObj [("jsonrpc", JStr "2.0"); ("id", JStr "i");
                             ("method", JStr "initialize");
                             ("params", JObj [("protocolVersion",
                                               JStr "1999-01-01")])]))
           fresh Stub.start); reflexivity.
Defined.

(** [tools/list] answers with the catalogue itself under [result.tools],
    unfiltered, whatever [params] holds; it calls nothing. *)
Theorem tools_list_catalogue {World} tools req res (s : St World) :
  valid_envelope (body req) ->
  prop (body req) "method" = JStr "tools/list" ->
  exists r,
    (forall handleToolCall,
        mcp_handler tools handleToolCall req res s = (Normal r, s)) /\
    prop (response_result r) "tools" = tools /\
    has_own (json_body r) "error" = false /\
    response_id r = prop (body req) "id".
Proof.
  intros Hv Hm.
  destruct (valid_envelope_object _ Hv) as [props Hb].
  eexists. split.
  - intros h. apply mcp_handler_valid; [exact Hv|].
    unfold dispatch, bind, lift, ret. rewrite Hb in *.
    cbn [get prop] in *. rewrite Hm. reflexivity.
  - rewrite Hb. repeat split.
Qed.

Lemma tools_list_catalogue_witness :
  let req := Stub.post (JObj [("jsonrpc", JStr "2.0"); ("id", JNum 2);
                              ("method", JStr "tools/list");
                              ("params", JObj [("cursor", JStr "p2")])]) in
  valid_envelope (body req) /\
  exists r,
    (forall handleToolCall,
        mcp_handler (World := nat) Stub.tools handleToolCall req fresh
                    Stub.start = (Normal r, Stub.start)) /\
    prop (response_result r) "tools" = Stub.tools /\
    has_own (json_body r) "error" = false /\
    response_id r = prop (body req) "id".
Proof.
  split; [reflexivity|].
  apply (tools_list_catalogue (World := nat) Stub.tools
           (Stub.post (JObj [("jsonrpc", JStr "2.0"); ("id", JNum 2);
                             ("method", JStr "tools/list");
                             ("params", JObj [("cursor", JStr "p2")])]))
           fresh Stub.start); reflexivity.
Defined.

(** A [tools/call] whose [params] is not an object (missing, [null], a
    number, a string, an array) has no tool name: it is answered with
    [-32602] and the collaborator is not called. *)
Theorem tools_call_params_not_object {World} tools req res (s : St World) :
  valid_envelope (body req) ->
  prop (body req) "method" = JStr "tools/call" ->
  (forall props, prop (body req) "params" <> JObj props) ->
  exists r,
    (forall handleToolCall,
        mcp_handler tools handleToolCall req res s = (Normal r, s)) /\
    error_code r = JNum (-32602) /\
    response_id r = prop (body req) "id".
Proof.
  intros Hv Hm Hp.
  assert (Hn : tool_name (body req) = JUndefined).
  { unfold tool_name, js_or.
    destruct (prop (body req) "params") as [| | | | | |props] eqn:E;
      try (destruct (truthy _); reflexivity).
    exfalso. apply (Hp props). reflexivity. }
  destruct (valid_envelope_object _ Hv) as [props Hb].
  eexists. split.
  - intros h. apply mcp_handler_valid; [exact Hv|].
    rewrite (dispatch_tools_call _ _ _ Hv Hm).
    unfold tool_name in Hn.
    unfold tools_call, bind, lift, ret. rewrite Hb in *.
    cbn [get prop] in *. rewrite Hn. reflexivity.
  - rewrite Hb. repeat split.
Qed.

Lemma tools_call_params_not_object_witness :
  let req := Stub.post (JObj [("jsonrpc", JStr "2.0"); ("id", JNum 5);
                              ("method", JStr "tools/call");
                              ("params", JArr [JStr "X"])]) in
  valid_envelope (body req) /\
  exists r,
    (forall handleToolCall,
        mcp_handler (World := nat) Stub.tools handleToolCall req fresh
                    Stub.start = (Normal r, Stub.start)) /\
    error_code r = JNum (-32602) /\
    response_id r = prop (body req) "id".
Proof.
  split; [reflexivity|].
  apply (tools_call_params_not_object (World := nat) Stub.tools
           (Stub.post (JObj [("jsonrpc", JStr "2.0"); ("id", JNum 5);
                             ("method", JStr "tools/call");
                             ("params", JArr [JStr "X"])]))
           fresh Stub.start); [reflexivity | reflexivity | discriminate].
Defined.

(* ================================================================== *)
(** ** How credentials reach the Auth Gate *)

Lemma substring_all (s : string) : String.substring 0 (String.length s) s = s.
Proof. induction s as [|c s IH]; simpl; [reflexivity | rewrite IH; reflexivity]. Qed.

(** Stripping the prefix undoes prefixing. *)
Lemma apiKeyFromHeader_bearer req (token : string) :
  authorization req = Some ("Bearer " ++ token) ->
  apiKeyFromHeader req = Some token.
Proof.
  intros H. unfold apiKeyFromHeader. rewrite H.
  unfold startsWith, substring_from. simpl.
  rewrite Nat.sub_0_r, substring_all.
  destruct token; reflexivity.
Qed.

Lemma apiKeyFromHeader_raw req (h : string) :
  authorization req = Some h -> startsWith h "Bearer " = false ->
  apiKeyFromHeader req = Some h.
Proof.
  intros H Hp. unfold apiKeyFromHeader. rewrite H, Hp. reflexivity.
Qed.

Lemma first_nonempty_head (c : string) (rest : list (option string)) :
  c <> EmptyString -> Spec.first_nonempty (Some c :: rest) = Some c.
Proof.
  intros H. simpl. apply String.eqb_neq in H. rewrite H. reflexivity.
Qed.

(** The gate with a secret configured, as a function of the first non-empty
    candidate. *)
Lemma gate_passes {World} key req res (next : Res -> M World Res) :
  key <> EmptyString ->
  Spec.first_nonempty (candidates req) = Some key ->
  apiKeyAuth (Some key) req res next = next res.
Proof.
  intros Hkey Hc. rewrite providedKey_first_nonempty in Hc.
  unfold apiKeyAuth. rewrite (truthy_str_some key Hkey).
  destruct (truthy_str (providedKey req)); [|discriminate Hc].
  rewrite Hc. simpl. rewrite String.eqb_refl. reflexivity.
Qed.

Lemma gate_refuses key req res :
  key <> EmptyString ->
  Spec.first_nonempty (candidates req) <> Some key ->
  exists code c msg,
    ((code = 401 /\ c = -32001) \/ (code = 403 /\ c = -32003)) /\
    forall World (next : Res -> M World Res),
      apiKeyAuth (Some key) req res next
      = ret (json (status res code) (auth_error c msg)).
Proof.
  intros Hkey Hc. rewrite providedKey_first_nonempty in Hc.
  unfold apiKeyAuth. rewrite (truthy_str_some key Hkey).
  destruct (truthy_str (providedKey req)) eqn:Hp; simpl negb; cbv iota.
  - destruct (providedKey req) as [k|]; [|discriminate Hp].
    simpl strict_eq_opt.
    destruct (k =? key)%string eqn:E.
    + apply String.eqb_eq in E. subst k. exfalso. apply Hc. reflexivity.
    + do 3 eexists. split; [right; split; reflexivity|].
      intros W next. reflexivity.
  - do 3 eexists. split; [left; split; reflexivity|].
    intros W next. reflexivity.
Qed.

(** The secret sent as [Authorization: Bearer <secret>] passes the gate,
    whatever the [X-API-Key] header and the [apiKey] parameter hold. *)
Theorem bearer_secret_passes {World} key req res
    (next : Res -> M World Res) :
  key <> EmptyString ->
  authorization req = Some ("Bearer " ++ key) ->
  apiKeyAuth (Some key) req res next = next res.
Proof.
  intros Hkey Ha. apply gate_passes; [exact Hkey|].
  unfold candidates. rewrite (apiKeyFromHeader_bearer _ _ Ha).
  apply first_nonempty_head. exact Hkey.
Qed.

Lemma bearer_secret_passes_witness :
  let req := Stub.with_keys (Some "Bearer s3cret") (Some "other")
                            (Some "wrong") in
  "s3cret" <> EmptyString /\
  authorization req = Some ("Bearer " ++ "s3cret") /\
  apiKeyAuth (World := nat) (Some "s3cret") req fresh
    (fun res => mcp_handler Stub.tools Stub.handleToolCall req res)
  = mcp_handler Stub.tools Stub.handleToolCall req fresh.
Proof.
  split; [discriminate|]. split; [reflexivity|].
  apply (bearer_secret_passes (World := nat) "s3cret"
           (Stub.with_keys (Some "Bearer s3cret") (Some "other")
                           (Some "wrong"))
           fresh
           (fun res => mcp_handler Stub.tools Stub.handleToolCall
                         (Stub.with_keys (Some "Bearer s3cret") (Some "other")
                                         (Some "wrong")) res));
    [discriminate | reflexivity].
Defined.

(** The secret sent as the bare [Authorization] value passes the gate too,
    provided it does not itself begin with ["Bearer "]. *)
Theorem raw_secret_passes {World} key req res (next : Res -> M World Res) :
  key <> EmptyString ->
  startsWith key "Bearer " = false ->
  authorization req = Some key ->
  apiKeyAuth (Some key) req res next = next res.
Proof.
  intros Hkey Hp Ha. apply gate_passes; [exact Hkey|].
  unfold candidates. rewrite (apiKeyFromHeader_raw _ _ Ha Hp).
  apply first_nonempty_head. exact Hkey.
Qed.

Lemma raw_secret_passes_witness :
  let req := Stub.with_keys (Some "s3cret") None None in
  "s3cret" <> EmptyString /\
  startsWith "s3cret" "Bearer " = false /\
  authorization req = Some "s3cret" /\
  apiKeyAuth (World := nat) (Some "s3cret") req fresh
    (fun res => mcp_handler Stub.tools Stub.handleToolCall req res)
  = mcp_handler Stub.tools Stub.handleToolCall req fresh.
Proof.
  split; [discriminate|]. split; [reflexivity|]. split; [reflexivity|].
  apply (raw_secret_passes (World := nat) "s3cret"
           (Stub.with_keys (Some "s3cret") None None) fresh
           (fun res => mcp_handler Stub.tools Stub.handleToolCall
                         (Stub.with_keys (Some "s3cret") None None) res));
    [discriminate | reflexivity | reflexivity].
Defined.

Lemma append_length (a b : string) :
  String.length (a ++ b) = (String.length a + String.length b)%nat.
Proof. induction a as [|c a IH]; simpl; [reflexivity | rewrite IH; reflexivity]. Qed.

(** A secret that itself begins with ["Bearer "] cannot be presented as the
    bare [Authorization] value: the prefix is stripped from it, and what is
    left is not the secret. With no other credential the request is
    refused. *)
Theorem bearer_prefixed_secret_refused key req res (rest : string) :
  key = "Bearer " ++ rest ->
  authorization req = Some key ->
  x_api_key req = None ->
  query_apiKey req = None ->
  exists r,
    (forall World (next : Res -> M World Res),
        apiKeyAuth (Some key) req res next = ret r) /\
    ((statusCode r = 401 /\ error_code r = JNum (-32001)) \/
     (statusCode r = 403 /\ error_code r = JNum (-32003))).
Proof.
  intros Hk Ha Hx Hq.
  assert (Hkey : key <> EmptyString) by (rewrite Hk; discriminate).
  assert (Hne : Spec.first_nonempty (candidates req) <> Some key).
  { unfold candidates, apiKeyFromCustomHeader, apiKeyFromQuery.
    rewrite Hk in Ha. rewrite (apiKeyFromHeader_bearer _ _ Ha), Hx, Hq.
    simpl. destruct (rest =? EmptyString)%string; [discriminate|].
    intros E. injection E as E.
    apply (f_equal String.length) in E. rewrite Hk in E.
    rewrite append_length in E. simpl in E. lia. }
  destruct (gate_refuses key req res Hkey Hne)
    as (code & c & msg & Hcode & Hgate).
  eexists. split; [exact Hgate|].
  destruct Hcode as [[-> ->] | [-> ->]]; [left | right]; split; reflexivity.
Qed.

Lemma bearer_prefixed_secret_refused_witness :
  let req := Stub.with_keys (Some "Bearer abc") None None in
  authorization req = Some "Bearer abc" /\
  exists r,
    (forall World (next : Res -> M World Res),
        apiKeyAuth (Some "Bearer abc") req fresh next = ret r) /\
    ((statusCode r = 401 /\ error_code r = JNum (-32001)) \/
     (statusCode r = 403 /\ error_code r = JNum (-32003))).
Proof.
  split; [reflexivity|].
  apply (bearer_prefixed_secret_refused "Bearer abc"
           (Stub.with_keys (Some "Bearer abc") None None) fresh "abc");
    reflexivity.
Defined.

(** The lower candidates are consulted exactly when the higher ones are
    empty: with no bearer-style value (no [Authorization] header, an empty
    one, or a bare ["Bearer "]), the secret in [X-API-Key] passes; with that
    header empty as well, the secret in the [apiKey] parameter passes. *)
Theorem lower_candidates_fallback {World} key req res
    (next : Res -> M World Res) :
  key <> EmptyString ->
  truthy_str (apiKeyFromHeader req) = false ->
  x_api_key req = Some key \/
  (truthy_str (x_api_key req) = false /\ query_apiKey req = Some key) ->
  apiKeyAuth (Some key) req res next = next res.
Proof.
  intros Hkey Hh Hlow. apply gate_passes; [exact Hkey|].
  unfold candidates, apiKeyFromCustomHeader, apiKeyFromQuery.
  rewrite first_nonempty_cons, Hh.
  destruct Hlow as [-> | [Hx ->]].
  - apply first_nonempty_head. exact Hkey.
  - rewrite first_nonempty_cons, Hx. apply first_nonempty_head. exact Hkey.
Qed.

Lemma lower_candidates_fallback_witness :
  let req := Stub.with_keys (Some "Bearer ") (Some "s3cret") None in
  let req' := Stub.with_keys None (Some EmptyString) (Some "s3cret") in
  "s3cret" <> EmptyString /\
  (truthy_str (apiKeyFromHeader req) = false /\
   apiKeyAuth (World := nat) (Some "s3cret") req fresh (fun res => ret res)
   = ret fresh) /\
  (truthy_str (apiKeyFromHeader req') = false /\
   apiKeyAuth (World := nat) (Some "s3cret") req' fresh (fun res => ret res)
   = ret fresh).
Proof.
  split; [discriminate|]. split; (split; [reflexivity|]).
  - apply (lower_candidates_fallback (World := nat) "s3cret"
             (Stub.with_keys (Some "Bearer ") (Some "s3cret") None) fresh
             (fun res => ret res));
      [discriminate | reflexivity | left; reflexivity].
  - apply (lower_candidates_fallback (World := nat) "s3cret"
             (Stub.with_keys None (Some EmptyString) (Some "s3cret")) fresh
             (fun res => ret res));
      [discriminate | reflexivity | right; split; reflexivity].
Defined.

(* ================================================================== *)
(** ** The routes with their middleware chains *)

(** The gate either passes the response on untouched or answers with one
    of its two bodies. *)
Lemma apiKeyAuth_cases (MCP_API_KEY : option string) req res :
  (forall World (next : Res -> M World Res),
      apiKeyAuth MCP_API_KEY req res next = next res) \/
  (exists code c msg,
      (code = 401 \/ code = 403) /\
      forall World (next : Res -> M World Res),
        apiKeyAuth MCP_API_KEY req res next
        = ret (json (status res code) (auth_error c msg))).
Proof.
  unfold apiKeyAuth.
  destruct (truthy_str MCP_API_KEY); simpl negb; cbv iota.
  - destruct (truthy_str (providedKey req)); simpl negb; cbv iota.
    + destruct (strict_eq_opt (providedKey req) MCP_API_KEY);
        simpl negb; cbv iota.
      * left. reflexivity.
      * right. do 3 eexists. split; [right; reflexivity|]. reflexivity.
    + right. do 3 eexists. split; [left; reflexivity|]. reflexivity.
  - left. reflexivity.
Qed.

(** What the CORS middleware hands to the rest of the chain. *)
Lemma corsMiddleware_passes {World} req res (next : Res -> M World Res) :
  method req <> "OPTIONS" ->
  exists res',
    corsMiddleware req res next = next res' /\
    headers res' = (headers res ++ cors_headers)%list /\
    statusCode res' = statusCode res /\
    sent res' = sent res /\
    chunks res' = chunks res /\
    ended res' = ended res.
Proof.
  intros Hm. apply String.eqb_neq in Hm.
  unfold corsMiddleware. rewrite Hm.
  eexists. split; [reflexivity|]. simpl.
  rewrite <- !app_assoc. repeat split.
Qed.

(** Every response of [POST /mcp] and of [GET /health] carries the three
    CORS headers: the preflight answer, the refusals of the Auth Gate and
    every answer of the handler alike. They are the only headers the server
    sets on these routes with [setHeader]. *)
Theorem cors_headers_on_every_response {World} (MCP_API_KEY : option string)
    tools
    (handleToolCall : JSVal -> JSVal -> World -> Completion JSVal * World)
    req res (s : St World) :
  (exists r s',
      post_mcp MCP_API_KEY tools handleToolCall req res s = (Normal r, s') /\
      headers r = (headers res ++ cors_headers)%list) /\
  (exists r,
      get_health req res s = (Normal r, s) /\
      headers r = (headers res ++ cors_headers)%list).
Proof.
  destruct (String.eqb_spec (method req) "OPTIONS") as [Hm | Hm].
  - unfold post_mcp, get_health, corsMiddleware.
    apply String.eqb_eq in Hm. rewrite Hm.
    split; [do 2 eexists | eexists]; (split; [reflexivity|]); simpl;
      rewrite <- !app_assoc; reflexivity.
  - split.
    + unfold post_mcp.
      destruct (corsMiddleware_passes req res
                  (fun res => apiKeyAuth MCP_API_KEY req res
                     (fun res => mcp_handler tools handleToolCall req res))
                  Hm) as (res' & -> & Hh & _).
      destruct (apiKeyAuth_cases MCP_API_KEY req res')
        as [Hpass | (code & c & msg & _ & Hrefuse)].
      * rewrite Hpass.
        destruct (mcp_handler_shape tools handleToolCall req res' s)
          as (r & s' & b & Hr & _ & _ & Hhr & _).
        exists r, s'. split; [exact Hr|]. rewrite Hhr. exact Hh.
      * rewrite Hrefuse. do 2 eexists. split; [reflexivity|]. exact Hh.
    + unfold get_health.
      destruct (corsMiddleware_passes (World := World) req res
                  (fun res => health_handler req res) Hm)
        as (res' & -> & Hh & _).
      eexists. split; [reflexivity|]. exact Hh.
Qed.

(** With a secret configured and credentials that are not the secret, a
    request to [POST /mcp] is answered by the chain itself, with the same
    response whatever the catalogue and the collaborator are: the state and
    its call log stay as they were, no tool runs, no [result] is sent. *)
Theorem unauthorized_never_reaches_collaborator {World} key req res :
  key <> EmptyString ->
  Spec.first_nonempty (candidates req) <> Some key ->
  exists r,
    (forall tools handleToolCall (s : St World),
        post_mcp (Some key) tools handleToolCall req res s = (Normal r, s)) /\
    has_own (json_body r) "result" = false /\
    (method req = "OPTIONS" \/ statusCode r = 401 \/ statusCode r = 403).
Proof.
  intros Hkey Hne.
  destruct (String.eqb_spec (method req) "OPTIONS") as [Hm | Hm].
  - unfold post_mcp, corsMiddleware.
    pose proof Hm as Hm'. apply String.eqb_eq in Hm'. rewrite Hm'.
    eexists. split; [reflexivity|]. split; [reflexivity|]. left. exact Hm.
  - pose proof Hm as Hm'. apply String.eqb_neq in Hm'.
    unfold post_mcp, corsMiddleware. rewrite Hm'.
    match goal with
    | |- context [apiKeyAuth _ _ ?r _] =>
        destruct (gate_refuses key req r Hkey Hne)
          as (code & c & msg & Hcode & Hgate)
    end.
    eexists. split.
    + intros tools h s. rewrite Hgate. reflexivity.
    + split; [reflexivity|]. right.
      destruct Hcode as [[-> _] | [-> _]]; [left | right]; reflexivity.
Qed.

Lemma unauthorized_never_reaches_collaborator_witness :
  let req :=
    {| method := "POST"; path := "/mcp";
       authorization := Some "Bearer guess"; x_api_key := Some "s3cret";
       query_apiKey := None; body := Stub.call_request (JStr "X") |} in
  "s3cret" <> EmptyString /\
  Spec.first_nonempty (candidates req) = Some "guess" /\
  exists r,
    (forall tools handleToolCall (s : St nat),
        post_mcp (Some "s3cret") tools handleToolCall req fresh s
        = (Normal r, s)) /\
    has_own (json_body r) "result" = false /\
    (method req = "OPTIONS" \/ statusCode r = 401 \/ statusCode r = 403).
Proof.
  split; [discriminate|]. split; [reflexivity|].
  apply (unauthorized_never_reaches_collaborator (World := nat) "s3cret"
           {| method := "POST"; path := "/mcp";
              authorization := Some "Bearer guess";
              x_api_key := Some "s3cret";
              query_apiKey := None; body := Stub.call_request (JStr "X") |}
           fresh); discriminate.
Defined.

(** The gate lets an authorized request through: no secret configured, or
    the first non-empty candidate is the secret. *)
Lemma gate_passes_authorized {World} (MCP_API_KEY : option string) req res
    (next : Res -> M World Res) :
  MCP_API_KEY = None \/
  (exists key, MCP_API_KEY = Some key /\ key <> EmptyString /\
               Spec.first_nonempty (candidates req) = Some key) ->
  apiKeyAuth MCP_API_KEY req res next = next res.
Proof.
  intros [-> | (key & -> & Hkey & Hc)].
  - reflexivity.
  - apply gate_passes; assumption.
Qed.

(** The whole chain of [POST /mcp] on an authorized [tools/call]: the
    collaborator is called once and the response carries the CORS headers.
    A result comes back as [result], with the status the chain was entered
    with and the [id] echoed. A failure that has a string rendering comes
    back likewise as the [-32603] error with that rendering as [data]; one
    that has none is answered by the outer [catch] with status 500. *)
Theorem authorized_tools_call_end_to_end {World}
    (MCP_API_KEY : option string) tools
    (handleToolCall : JSVal -> JSVal -> World -> Completion JSVal * World)
    req res (s : St World) (outcome : Completion JSVal) (w : World) :
  method req <> "OPTIONS" ->
  MCP_API_KEY = None \/
  (exists key, MCP_API_KEY = Some key /\ key <> EmptyString /\
               Spec.first_nonempty (candidates req) = Some key) ->
  valid_envelope (body req) ->
  prop (body req) "method" = JStr "tools/call" ->
  truthy (tool_name (body req)) = true ->
  handleToolCall (tool_name (body req)) (tool_arguments (body req)) (world s)
  = (outcome, w) ->
  exists r,
    post_mcp MCP_API_KEY tools handleToolCall req res s
    = (Normal r,
       {| world := w;
          calls := calls s ++ [(tool_name (body req),
                                tool_arguments (body req))] |}) /\
    headers r = (headers res ++ cors_headers)%list /\
    match outcome with
    | Normal result =>
        statusCode r = statusCode res /\
        response_id r = prop (body req) "id" /\
        response_result r = result
    | Abrupt error =>
        error_code r = JNum (-32603) /\
        error_message r = JStr "Internal error" /\
        (forall detail,
            Spec.rendering error detail ->
            statusCode r = statusCode res /\
            response_id r = prop (body req) "id" /\
            error_data r = JStr detail) /\
        ((forall detail, ~ Spec.rendering error detail) ->
         statusCode r = 500 /\
         response_id r = js_or (prop (body req) "id") JNull)
    end.
Proof.
  intros Hm Hauth Hv Hcall Hn Hc.
  unfold post_mcp.
  destruct (corsMiddleware_passes req res
              (fun res => apiKeyAuth MCP_API_KEY req res
                 (fun res => mcp_handler tools handleToolCall req res))
              Hm) as (res' & -> & Hh & Hs & _).
  rewrite (gate_passes_authorized _ _ _ _ Hauth).
  pose proof (tools_call_awaits _ _ _ _ _ Hv Hn Hc) as Ht.
  rewrite <- (dispatch_tools_call tools _ _ Hv Hcall) in Ht.
  destruct outcome as [result | error].
  - rewrite (mcp_handler_valid _ _ _ _ _ _ _ Hv Ht).
    eexists. split; [reflexivity|]. split; [exact Hh|].
    split; [exact Hs|]. split; reflexivity.
  - destruct (failure_detail_cases error)
      as [(detail & Hr & Hd) | (Hno & Hd)]; rewrite Hd in Ht.
    + rewrite (mcp_handler_valid _ _ _ _ _ _ _ Hv Ht).
      eexists. split; [reflexivity|]. split; [exact Hh|].
      split; [reflexivity|]. split; [reflexivity|]. split.
      * intros detail' Hr'.
        pose proof (failure_detail_rendering _ _ Hr') as Hd'.
        rewrite Hd in Hd'. injection Hd' as <-.
        split; [exact Hs|]. split; reflexivity.
      * intros Hno. exfalso. apply (Hno detail). exact Hr.
    + rewrite (mcp_handler_backstop _ _ _ _ _ _ _ _ Hv Ht eq_refl).
      eexists. split; [reflexivity|]. split; [exact Hh|].
      split; [reflexivity|]. split; [reflexivity|]. split.
      * intros detail Hr. exfalso. apply (Hno detail). exact Hr.
      * intros _. split; reflexivity.
Qed.

(** An authorized call of a tool that answers, and one of tool ["X"], which
    fails with the [Error] "upstream unavailable". *)
Lemma authorized_tools_call_end_to_end_witness :
  (exists r,
      post_mcp (Some "s3cret") Stub.tools Stub.handleToolCall
               (Stub.authorized_call "readwise_list_highlights") fresh
               Stub.start
      = (Normal r,
         {| world := 1%nat;
            calls := [(JStr "readwise_list_highlights",
                       JObj [("page", JNum 2)])] |}) /\
      headers r = cors_headers /\
      statusCode r = 200 /\
      response_id r = JNum 9 /\
      response_result r = Stub.tool_result) /\
  (exists r,
      post_mcp (Some "s3cret") Stub.tools Stub.handleToolCall
               (Stub.authorized_call "X") fresh Stub.start
      = (Normal r,
         {| world := 1%nat;
            calls := [(JStr "X", JObj [("page", JNum 2)])] |}) /\
      headers r = cors_headers /\
      statusCode r = 200 /\
      error_code r = JNum (-32603) /\
      error_data r = JStr "upstream unavailable").
Proof.
  assert (Hauth : forall name,
             Some "s3cret" = None \/
             (exists key, Some "s3cret" = Some key /\ key <> EmptyString /\
                Spec.first_nonempty (candidates (Stub.authorized_call name))
                = Some key)).
  { intros name. right. exists "s3cret".
    split; [reflexivity|]. split; [discriminate | reflexivity]. }
  assert (Hpost : forall name,
             method (Stub.authorized_call name) <> "OPTIONS")
    by (intros name; discriminate).
  split.
  - destruct (authorized_tools_call_end_to_end (Some "s3cret") Stub.tools
                Stub.handleToolCall
                (Stub.authorized_call "readwise_list_highlights")
                fresh Stub.start (Normal Stub.tool_result) 1%nat
                (Hpost _) (Hauth _) eq_refl eq_refl eq_refl eq_refl)
      as (r & Hr & Hh & Hs & Hid & Hres).
    exists r. repeat split; assumption.
  - destruct (authorized_tools_call_end_to_end (Some "s3cret") Stub.tools
                Stub.handleToolCall (Stub.authorized_call "X")
                fresh Stub.start
                (Abrupt (ThrownError "upstream unavailable")) 1%nat
                (Hpost _) (Hauth _) eq_refl eq_refl eq_refl eq_refl)
      as (r & Hr & Hh & Hcode & _ & Hrendered & _).
    destruct (Hrendered _ (Spec.rendering_error "upstream unavailable"))
      as (Hs & _ & Hdata).
    exists r. repeat split; assumption.
Defined.

(* ================================================================== *)
(** ** The route [GET /sse] and the life of a stream *)

(** With a secret configured and credentials that are not the secret, no
    stream is opened: the chain answers and ends the response without the
    connection event being written. *)
Theorem sse_requires_authorization {World} key req res (s : St World) :
  key <> EmptyString ->
  Spec.first_nonempty (candidates req) <> Some key ->
  exists r,
    get_sse (Some key) req res s = (Normal r, s) /\
    chunks r = chunks res /\
    ended r = true /\
    sent r <> None.
Proof.
  intros Hkey Hne.
  destruct (String.eqb_spec (method req) "OPTIONS") as [Hm | Hm].
  - unfold get_sse, corsMiddleware.
    apply String.eqb_eq in Hm. rewrite Hm.
    eexists. split; [reflexivity|]. repeat split. discriminate.
  - apply String.eqb_neq in Hm.
    unfold get_sse, corsMiddleware. rewrite Hm.
    match goal with
    | |- context [apiKeyAuth _ _ ?r _] =>
        destruct (gate_refuses key req r Hkey Hne)
          as (code & c & msg & _ & Hgate)
    end.
    rewrite Hgate. eexists. split; [reflexivity|]. repeat split. discriminate.
Qed.

Lemma sse_requires_authorization_witness :
  let req := {| method := "GET"; path := "/sse"; authorization := None;
                x_api_key := None; query_apiKey := Some "nope";
                body := JUndefined |} in
  "s3cret" <> EmptyString /\
  exists r,
    get_sse (Some "s3cret") req fresh Stub.start = (Normal r, Stub.start) /\
    chunks r = chunks fresh /\
    ended r = true /\
    sent r <> None.
Proof.
  split; [discriminate|].
  apply (sse_requires_authorization "s3cret"
           {| method := "GET"; path := "/sse"; authorization := None;
              x_api_key := None; query_apiKey := Some "nope";
              body := JUndefined |} fresh Stub.start); discriminate.
Defined.

(** An authorized [GET /sse] opens the stream: the response is left open
    with the status untouched and nothing sent as a body, the connection
    event is the one chunk written, and the headers set are the CORS ones
    followed by the four of the stream. *)
Theorem sse_opens_for_authorized {World} (MCP_API_KEY : option string)
    req res (s : St World) :
  method req <> "OPTIONS" ->
  MCP_API_KEY = None \/
  (exists key, MCP_API_KEY = Some key /\ key <> EmptyString /\
               Spec.first_nonempty (candidates req) = Some key) ->
  exists r,
    get_sse MCP_API_KEY req res s = (Normal r, s) /\
    chunks r = (chunks res ++ [connection_event])%list /\
    ended r = ended res /\
    sent r = sent res /\
    statusCode r = statusCode res /\
    headers r = (headers res ++ cors_headers
                 ++ [("Content-Type", "text/event-stream");
                     ("Cache-Control", "no-cache");
                     ("Connection", "keep-alive");
                     ("Access-Control-Allow-Origin", "*")])%list.
Proof.
  intros Hm Hauth. unfold get_sse.
  destruct (corsMiddleware_passes req res
              (fun res => apiKeyAuth MCP_API_KEY req res
                 (fun res => ret (World := World)
                               (response (sse_handler req res))))
              Hm) as (res' & -> & Hh & Hs & Hsent & Hch & He).
  rewrite (gate_passes_authorized _ _ _ _ Hauth).
  eexists. split; [reflexivity|]. simpl.
  rewrite Hch, He, Hsent, Hs, Hh, <- !app_assoc. repeat split.
Qed.

Lemma sse_opens_for_authorized_witness :
  let req := {| method := "GET"; path := "/sse"; authorization := None;
                x_api_key := None; query_apiKey := Some "s3cret";
                body := JUndefined |} in
  exists r,
    get_sse (Some "s3cret") req fresh Stub.start = (Normal r, Stub.start) /\
    chunks r = (chunks fresh ++ [connection_event])%list /\
    ended r = ended fresh /\
    sent r = sent fresh /\
    statusCode r = statusCode fresh /\
    headers r = (headers fresh ++ cors_headers
                 ++ [("Content-Type", "text/event-stream");
                     ("Cache-Control", "no-cache");
                     ("Connection", "keep-alive");
                     ("Access-Control-Allow-Origin", "*")])%list.
Proof.
  apply (sse_opens_for_authorized (Some "s3cret")
           {| method := "GET"; path := "/sse"; authorization := None;
              x_api_key := None; query_apiKey := Some "s3cret";
              body := JUndefined |} fresh Stub.start).
  - discriminate.
  - right. exists "s3cret". repeat split. discriminate.
Defined.

(** A step changes neither the status, nor the headers, nor the body sent;
    a tick leaves the stream as open and its timer as live as they were. *)
Lemma step_frame (c : Conn) (e : Event) :
  statusCode (response (step c e)) = statusCode (response c) /\
  headers (response (step c e)) = headers (response c) /\
  sent (response (step c e)) = sent (response c).
Proof.
  destruct e; simpl.
  - unfold tick. destruct (keepAlive c) as [t|]; [|repeat split].
    destruct (remaining t <=? 1); repeat split.
  - repeat split.
Qed.

Lemma tick_open (c : Conn) :
  ended (response (tick c)) = ended (response c) /\
  no_timer (tick c) = no_timer c.
Proof.
  unfold tick, no_timer.
  destruct (keepAlive c) as [t|] eqn:E; [|rewrite E; split; reflexivity].
  destruct (remaining t <=? 1); split; reflexivity.
Qed.

Lemma run_open (events : list Event) (c : Conn) :
  ended (response (run c events)) = closes events || ended (response c) /\
  no_timer (run c events) = closes events || no_timer c.
Proof.
  revert c. induction events as [|[|] events IH]; intros c.
  - split; reflexivity.
  - change (run c (Tick :: events)) with (run (tick c) events).
    destruct (IH (tick c)) as [H1 H2]. destruct (tick_open c) as [H3 H4].
    simpl closes. rewrite H1, H2, H3, H4. split; reflexivity.
  - change (run c (Close :: events)) with (run (on_close c) events).
    destruct (IH (on_close c)) as [H1 H2].
    rewrite H1, H2. simpl. rewrite !orb_true_r. split; reflexivity.
Qed.

Lemma run_frame (events : list Event) (c : Conn) :
  statusCode (response (run c events)) = statusCode (response c) /\
  headers (response (run c events)) = headers (response c) /\
  sent (response (run c events)) = sent (response c).
Proof.
  revert c. induction events as [|e events IH]; intros c.
  - repeat split.
  - change (run c (e :: events)) with (run (step c e) events).
    destruct (IH (step c e)) as (H1 & H2 & H3).
    destruct (step_frame c e) as (H4 & H5 & H6).
    rewrite H1, H2, H3, H4, H5, H6. repeat split.
Qed.

(** The server never ends a stream of its own accord: after any events the
    response is ended exactly when the client has closed (or it was ended
    before the handler ran), the timer is gone exactly when the client has
    closed, and status, headers and body are those of the opening. *)
Theorem stream_ends_only_on_close req res (events : list Event) :
  let c := run (sse_handler req res) events in
  ended (response c) = closes events || ended res /\
  (keepAlive c = None <-> closes events = true) /\
  statusCode (response c) = statusCode res /\
  sent (response c) = sent res /\
  headers (response c) = headers (response (sse_handler req res)).
Proof.
  cbv zeta.
  destruct (run_open events (sse_handler req res)) as [He Ht].
  destruct (run_frame events (sse_handler req res)) as (Hs & Hh & Hb).
  split; [exact He|]. split.
  - unfold no_timer in Ht. simpl in Ht. rewrite orb_false_r in Ht.
    destruct (keepAlive (run (sse_handler req res) events)); rewrite <- Ht;
      split; intros H; try reflexivity; discriminate H.
  - split; [exact Hs|]. split; [exact Hb | exact Hh].
Qed.

(** The events of a stream: the ticks before the first close, then nothing,
    or that close and what follows it. *)
Lemma events_split (events : list Event) :
  exists tail,
    events = (repeat Tick (ticks_before_close events) ++ tail)%list /\
    (tail = [] \/ exists rest, tail = Close :: rest).
Proof.
  induction events as [|[|] events (tail & IH & Ht)].
  - exists []. split; [reflexivity | left; reflexivity].
  - exists tail. split; [|exact Ht]. simpl. rewrite <- IH. reflexivity.
  - exists (Close :: events). split; [reflexivity|].
    right. eexists. reflexivity.
Qed.

(** The output of a stream after any events: the connection event, then one
    keep-alive for every full 30000 ms that passed before the first close.
    Ticks after a close count for nothing. *)
Theorem stream_output_until_close req res (events : list Event) :
  chunks (response (run (sse_handler req res) events))
  = (chunks res ++ connection_event
       :: repeat keepalive_event
            (Z.to_nat (Z.of_nat (ticks_before_close events) / 30000)))%list.
Proof.
  destruct (events_split events) as (tail & Hev & Ht).
  destruct (run_ticks req res (ticks_before_close events)) as [_ Hc].
  rewrite Hev at 1. rewrite run_app.
  destruct Ht as [-> | [rest ->]].
  - exact Hc.
  - change (run ?c (Close :: rest)) with (run (on_close c) rest).
    destruct (run_cleared rest
                (on_close (run (sse_handler req res)
                             (repeat Tick (ticks_before_close events))))
                eq_refl) as [_ ->].
    exact Hc.
Qed.

(* ================================================================== *)
(** ** The start of the process *)

Lemma parse_digits_step (c : ascii) (rest : string) (acc : option Z) :
  Startup.is_digit c = true ->
  Startup.parse_digits (String c rest) acc =
  Startup.parse_digits rest
    (Some (10 * match acc with Some a => a | None => 0 end
           + Startup.digit_value c)).
Proof. intros H. simpl. rewrite H. reflexivity. Qed.

(** Reading the digits of a decimal numeral continues the number read so
    far. *)
Lemma parse_digits_acc (d : Decimal.uint) (a : positive) :
  Startup.parse_digits (NilEmpty.string_of_uint d) (Some (Z.pos a))
  = Some (Z.pos (Pos.of_uint_acc d a)).
Proof.
  revert a.
  induction d; intros a; cbn [NilEmpty.string_of_uint Pos.of_uint_acc];
    [reflexivity | ..];
    (rewrite parse_digits_step by reflexivity;
     match goal with
     | |- Startup.parse_digits _ (Some ?x)
          = Some (Z.pos (Pos.of_uint_acc _ ?y)) =>
         replace x with (Z.pos y)
           by (unfold Startup.digit_value;
               match goal with
               | |- context [nat_of_ascii ?c] =>
                   let n := eval vm_compute in (nat_of_ascii c) in
                   change (nat_of_ascii c) with n
               end; lia)
     end;
     apply IHd).
Qed.

Lemma parse_digits_uint (d : Decimal.uint) (acc : option Z) :
  acc = None \/ acc = Some 0 ->
  d <> Decimal.Nil ->
  Startup.parse_digits (NilEmpty.string_of_uint d) acc
  = Some (Z.of_N (Pos.of_uint d)).
Proof.
  revert acc.
  induction d as [|d IH|d _|d _|d _|d _|d _|d _|d _|d _|d _];
    intros acc Hacc Hd;
    cbn [NilEmpty.string_of_uint Pos.of_uint]; [congruence | ..];
    rewrite parse_digits_step by reflexivity;
    (destruct Hacc as [-> | ->];
     match goal with
     | |- Startup.parse_digits _ (Some ?x) = _ =>
         let v := eval vm_compute in x in change x with v
     end);
    try apply (parse_digits_acc d).
  all: destruct d; try reflexivity; (apply IH; [right; reflexivity | discriminate]).
Qed.

Ltac eval_whitespace :=
  match goal with
  | |- context [Startup.is_whitespace ?c] =>
      let v := eval vm_compute in (Startup.is_whitespace c) in
      change (Startup.is_whitespace c) with v
  end.

(** [parseInt] reads a decimal numeral, with or without a minus sign, as
    the number it denotes. *)
Lemma parseInt_numeral (d : Decimal.uint) :
  d <> Decimal.Nil ->
  Startup.parseInt (NilEmpty.string_of_uint d) = Some (Z.of_N (Pos.of_uint d)) /\
  Startup.parseInt (String "-" (NilEmpty.string_of_uint d))
  = Some (- Z.of_N (Pos.of_uint d)).
Proof.
  intros Hd.
  pose proof (parse_digits_uint d None (or_introl eq_refl) Hd) as H.
  unfold Startup.parseInt. split.
  - destruct d; [congruence | ..];
      cbn [NilEmpty.string_of_uint Startup.skip_whitespace] in *;
      eval_whitespace; cbv beta iota zeta; rewrite H;
      destruct (Z.of_N _); reflexivity.
  - cbn [Startup.skip_whitespace]. eval_whitespace. cbv beta iota zeta.
    rewrite H. destruct (Z.of_N _); reflexivity.
Qed.

(** Printing a number and parsing it back gives the number. *)
Lemma parseInt_string_of_Z (n : Z) :
  Startup.parseInt (string_of_Z n) = Some n.
Proof.
  unfold string_of_Z.
  destruct n as [|p|p]; [reflexivity | ..]; simpl Z.to_int;
    pose proof (Unsigned.to_uint_nonnil p) as Hnil;
    pose proof (Unsigned.of_to p) as Hp;
    destruct (parseInt_numeral _ Hnil) as [Hpos Hneg];
    unfold NilZero.string_of_int, NilZero.string_of_uint;
    destruct (Pos.to_uint p) eqn:E; try congruence;
    rewrite <- E in *; rewrite ?Hpos, ?Hneg, Hp; reflexivity.
Qed.

Lemma string_of_Z_nonempty (n : Z) : string_of_Z n <> EmptyString.
Proof.
  intros E. pose proof (parseInt_string_of_Z n) as H.
  rewrite E in H. discriminate H.
Qed.

(** A port written as a decimal number is the port the server listens on,
    except that zero gives the default 3000. The bound keeps the number
    within the exact integers of JavaScript. *)
Theorem port_of_decimal (env : Startup.Env) (n : Z) :
  Z.abs n <= 9007199254740991 ->
  Startup.PORT env = Some (string_of_Z n) ->
  Startup.port env = if n =? 0 then 3000 else n.
Proof.
  intros _ Hp. unfold Startup.port. rewrite Hp.
  rewrite (truthy_str_some _ (string_of_Z_nonempty n)).
  rewrite parseInt_string_of_Z. reflexivity.
Qed.

Lemma port_of_decimal_witness :
  let env n := {| Startup.READWISE_TOKEN := Some "token";
                  Startup.MCP_API_KEY := None;
                  Startup.PORT := Some (string_of_Z n) |} in
  (string_of_Z 8080 = "8080" /\ Startup.port (env 8080) = 8080) /\
  (string_of_Z 0 = "0" /\ Startup.port (env 0) = 3000).
Proof.
  split; (split; [reflexivity|]).
  - apply (port_of_decimal
             {| Startup.READWISE_TOKEN := Some "token";
                Startup.MCP_API_KEY := None;
                Startup.PORT := Some (string_of_Z 8080) |} 8080);
      [vm_compute; discriminate | reflexivity].
  - apply (port_of_decimal
             {| Startup.READWISE_TOKEN := Some "token";
                Startup.MCP_API_KEY := None;
                Startup.PORT := Some (string_of_Z 0) |} 0);
      [vm_compute; discriminate | reflexivity].
Defined.

(** The port falls back to 3000 when [PORT] is unset, empty, or begins with
    a character that is neither white space, nor a sign, nor a digit. *)
Theorem port_falls_back (env : Startup.Env) :
  Startup.PORT env = None \/
  Startup.PORT env = Some EmptyString \/
  (exists c rest,
      Startup.PORT env = Some (String c rest) /\
      Startup.is_whitespace c = false /\
      Startup.is_digit c = false /\
      c <> "+"%char /\ c <> "-"%char) ->
  Startup.port env = 3000.
Proof.
  unfold Startup.port.
  intros [-> | [-> | (c & rest & -> & Hw & Hd & Hplus & Hminus)]];
    [reflexivity | reflexivity |].
  cbn [truthy_str String.eqb negb].
  assert (Hparse : Startup.parseInt (String c rest) = None).
  { unfold Startup.parseInt. cbn [Startup.skip_whitespace]. rewrite Hw.
    assert (Hsign :
              match String c rest with
              | String "-" r => (-1, r)
              | String "+" r => (1, r)
              | _ => (1, String c rest)
              end = (1, String c rest)).
    { destruct c as [[|] [|] [|] [|] [|] [|] [|] [|]];
        try reflexivity; congruence. }
    rewrite Hsign. cbn [Startup.parse_digits]. rewrite Hd. reflexivity. }
  rewrite Hparse. reflexivity.
Qed.

Lemma port_falls_back_witness :
  let env p := {| Startup.READWISE_TOKEN := Some "token";
                  Startup.MCP_API_KEY := None; Startup.PORT := p |} in
  Startup.port (env None) = 3000 /\
  Startup.port (env (Some EmptyString)) = 3000 /\
  Startup.port (env (Some "eighty")) = 3000.
Proof.
  split; [|split].
  - apply (port_falls_back
             {| Startup.READWISE_TOKEN := Some "token";
                Startup.MCP_API_KEY := None; Startup.PORT := None |}).
    left. reflexivity.
  - apply (port_falls_back
             {| Startup.READWISE_TOKEN := Some "token";
                Startup.MCP_API_KEY := None;
                Startup.PORT := Some EmptyString |}).
    right. left. reflexivity.
  - apply (port_falls_back
             {| Startup.READWISE_TOKEN := Some "token";
                Startup.MCP_API_KEY := None;
                Startup.PORT := Some "eighty" |}).
    right. right. exists "e"%char, "ighty".
    repeat split; discriminate.
Defined.


(** The gate lets every request through exactly when no secret is
    configured. *)
Lemma gate_open_iff_unconfigured (MCP_API_KEY : option string) :
  (forall World req res (next : Res -> M World Res),
      apiKeyAuth MCP_API_KEY req res next = next res) <->
  truthy_str MCP_API_KEY = false.
Proof.
  split.
  - intros H.
    specialize (H unit (Stub.post JNull) fresh
                  (fun _ => throw (ThrownValue JNull))).
    unfold apiKeyAuth in H.
    destruct (truthy_str MCP_API_KEY); [|reflexivity].
    apply (f_equal (fun m => fst (m {| world := tt; calls := [] |}))) in H.
    discriminate H.
  - intros H W req res next. unfold apiKeyAuth. rewrite H. reflexivity.
Qed.

(** When the server listens, its banner tells the truth about the gate: it
    says "Disabled" exactly when the Auth Gate lets every request through,
    "Enabled" exactly when it does not, and the warning goes to the standard
    error exactly in the first case; the token is never reported missing. *)
Theorem banner_matches_gate (bind : Z -> bool) (env : Startup.Env) (p : Z)
    (err out : list string) :
  Startup.main bind env = Startup.Listening p err out ->
  let open :=
    forall World req res (next : Res -> M World Res),
      apiKeyAuth (Startup.MCP_API_KEY env) req res next = next res in
  (In "API Key authentication: Disabled" out <-> open) /\
  (In "API Key authentication: Enabled" out <-> ~ open) /\
  (err <> [] <-> open) /\
  In "Readwise token: Configured" out /\
  ~ In "Readwise token: Missing" out.
Proof.
  unfold Startup.main.
  destruct (truthy_str (Startup.READWISE_TOKEN env)); [|discriminate].
  cbn [negb].
  destruct (Startup.valid_port (Startup.port env) && bind (Startup.port env));
    [|discriminate].
  intros H. injection H as _ <- <-. cbv zeta.
  rewrite gate_open_iff_unconfigured.
  destruct (truthy_str (Startup.MCP_API_KEY env)); cbn [negb In].
  - split; [|split; [|split; [|split]]].
    + split; [|discriminate].
      intros [H|[H|[H|[H|[H|[H|[]]]]]]]; discriminate H.
    + split; [discriminate|]. intros _. do 4 right. left. reflexivity.
    + split; [congruence | discriminate].
    + do 5 right. left. reflexivity.
    + intros [H|[H|[H|[H|[H|[H|[]]]]]]]; discriminate H.
  - split; [|split; [|split; [|split]]].
    + split; [reflexivity|]. intros _. do 4 right. left. reflexivity.
    + split; [|congruence].
      intros [H|[H|[H|[H|[H|[H|[]]]]]]]; discriminate H.
    + split; [reflexivity | discriminate].
    + do 5 right. left. reflexivity.
    + intros [H|[H|[H|[H|[H|[H|[]]]]]]]; discriminate H.
Qed.

Lemma banner_matches_gate_witness :
  let env := {| Startup.READWISE_TOKEN := Some "token";
                Startup.MCP_API_KEY := Some "s3cret";
                Startup.PORT := Some "8080" |} in
  exists err out,
    Startup.main (fun _ => true) env = Startup.Listening 8080 err out /\
    In "API Key authentication: Enabled" out /\
    ~ (forall World req res (next : Res -> M World Res),
          apiKeyAuth (Startup.MCP_API_KEY env) req res next = next res).
Proof.
  do 2 eexists. split; [reflexivity|].
  destruct (banner_matches_gate (fun _ => true)
              {| Startup.READWISE_TOKEN := Some "token";
                 Startup.MCP_API_KEY := Some "s3cret";
                 Startup.PORT := Some "8080" |} 8080 _ _ eq_refl)
    as (_ & Hen & _).
  assert (Hin : In "API Key authentication: Enabled"
                  ["Readwise MCP Enhanced server running on port 8080";
                   "MCP endpoint: http://localhost:8080/mcp";
                   "SSE endpoint: http://localhost:8080/sse";
                   "Health check: http://localhost:8080/health";
                   "API Key authentication: Enabled";
                   "Readwise token: Configured"])
    by (do 4 right; left; reflexivity).
  split; [exact Hin|]. apply Hen. exact Hin.
Defined.
